(** * buildly-core: permission codes, invitation tokens, signup and password reset

    A shallow embedding of the business logic of
    [core/serializers.py], [core/views/coreuser.py] and
    [workflow/models.py], and the properties the specification states
    about it.

    Python dictionaries are finite maps ([gmap]); Python exceptions are the
    [Raise] outcome of a small error monad; database tables are lists of
    records inside an explicit store that every operation threads through;
    the effects of an operation on the outside world (tokens minted, e-mails
    sent) are recorded in a trace. *)

From Stdlib Require Import Ascii String ZArith.
From stdpp Require Import gmap strings pretty list fin_maps.

Open Scope Z_scope.

(** ** Python outcomes *)

Module Py.

(** The exception classes of the [jwt] package. [InvalidSignatureError]
    derives from [DecodeError]; the others derive from [InvalidTokenError]
    directly, as [DecodeError] itself does. *)
Inductive jwt_exception : Type :=
  | DecodeError
  | InvalidSignatureError
  | ExpiredSignatureError
  | InvalidAudienceError
  | InvalidIssuerError
  | InvalidIssuedAtError
  | ImmatureSignatureError
  | InvalidAlgorithmError
  | MissingRequiredClaimError.

(** [isinstance(e, jwt.DecodeError)] *)
Definition is_DecodeError (e : jwt_exception) : bool :=
  match e with
  | DecodeError | InvalidSignatureError => true
  | _ => false
  end.

(** [isinstance(e, jwt.ExpiredSignatureError)] *)
Definition is_ExpiredSignatureError (e : jwt_exception) : bool :=
  match e with
  | ExpiredSignatureError => true
  | _ => false
  end.

(** The exception classes the embedded code raises or lets through. *)
Inductive exn : Type :=
  | ValidationError (detail : string)
  | ValueError
  | KeyError (key : string)
  | DoesNotExist
  | MultipleObjectsReturned
  | JwtError (e : jwt_exception).

Inductive result (A : Type) : Type :=
  | Ok (a : A)
  | Raise (e : exn).
Arguments Ok {A} a.
Arguments Raise {A} e.

#[export] Instance result_ret : MRet result := fun A a => Ok a.

#[export] Instance result_bind : MBind result := fun A B k m =>
  match m with
  | Ok a => k a
  | Raise e => Raise e
  end.

(** [d[key]] on a dictionary: [KeyError] when the key is absent. *)
Definition getitem {V} (d : gmap string V) (key : string) : result V :=
  match d !! key with
  | Some v => Ok v
  | None => Raise (KeyError key)
  end.

(** [[f(x) for x in xs]] where [f] may raise: the first exception wins. *)
Fixpoint for_each {A B} (f : A → result B) (xs : list A) : result (list B) :=
  match xs with
  | [] => Ok []
  | x :: xs' =>
      match f x with
      | Raise e => Raise e
      | Ok y =>
          match for_each f xs' with
          | Raise e => Raise e
          | Ok ys => Ok (y :: ys)
          end
      end
  end.

End Py.

Import Py.

(** ** [PermissionsField] (core/serializers.py) *)

Module PermissionsField.

(** [_keys = ('create', 'read', 'update', 'delete')] *)
Definition _keys : list string := ["create"; "read"; "update"; "delete"]%string.

(** The binary digits of a positive number, most significant first. *)
Fixpoint bin_digits (p : positive) : string :=
  match p with
  | xH => "1"
  | xO p' => bin_digits p' +:+ "0"
  | xI p' => bin_digits p' +:+ "1"
  end%string.

(** [n] copies of the fill character ['0']. *)
Fixpoint zeros (n : nat) : string :=
  match n with
  | O => EmptyString
  | S n' => String "0"%char (zeros n')
  end.

(** Sign-aware zero padding of the digits [s] to [width] characters. *)
Definition zfill (width : nat) (s : string) : string :=
  (zeros (width - String.length s) +:+ s)%string.

(** ['{0:b}'.format(z)] *)
Definition format_b (z : Z) : string :=
  match z with
  | Z0 => "0"
  | Zpos p => bin_digits p
  | Zneg p => "-" +:+ bin_digits p
  end%string.

(** ['{0:04b}'.format(z)]: the sign counts towards the width of four. *)
Definition format_04b (z : Z) : string :=
  match z with
  | Z0 => zfill 4 "0"
  | Zpos p => zfill 4 (bin_digits p)
  | Zneg p => "-" +:+ zfill 3 (bin_digits p)
  end%string.

(** [int(ch)] on a one-character string: a decimal digit, or [ValueError]. *)
Definition int_of_char (ch : ascii) : result Z :=
  let n := Z.of_nat (nat_of_ascii ch) in
  if (48 <=? n) && (n <=? 57) then Ok (n - 48) else Raise ValueError.

(** [bool(n)] on an integer. *)
Definition bool_of_int (n : Z) : bool := negb (n =? 0).

(** [zip(keys, map(bool, map(int, chars)))], consumed: the maps are
    lazy, so a character is converted only when [zip] pairs it with a key,
    and [zip] stops at the shorter of the two sequences. *)
Fixpoint zip_items (keys : list string) (chars : list ascii)
  : result (list (string * bool)) :=
  match keys, chars with
  | k :: keys', ch :: chars' =>
      n ← int_of_char ch;
      rest ← zip_items keys' chars';
      Ok ((k, bool_of_int n) :: rest)
  | _, _ => Ok []
  end.

(** [dict(items)]: a later item replaces an earlier one with the same key. *)
Definition dict (items : list (string * bool)) : gmap string bool :=
  foldl (λ acc item, <[item.1 := item.2]> acc) ∅ items.

(** [to_representation(self, value)] *)
Definition to_representation (value : Z) : result (gmap string bool) :=
  let permissions :=
    list_ascii_of_string (format_04b (if value <? 16 then value else 15)) in
  items ← zip_items _keys permissions;
  Ok (dict items).

(** [str(int(b))] for a boolean [b]. *)
Definition str_int_bool (b : bool) : string := if b then "1" else "0".

(** [int(s, 2)]: [ValueError] on the empty string and on any character
    that is not a binary digit. *)
Fixpoint int_base2_from (acc : Z) (s : string) : result Z :=
  match s with
  | EmptyString => Ok acc
  | String ch s' =>
      if Ascii.eqb ch "0"%char then int_base2_from (2 * acc) s'
      else if Ascii.eqb ch "1"%char then int_base2_from (2 * acc + 1) s'
      else Raise ValueError
  end.

Definition int_base2 (s : string) : result Z :=
  match s with
  | EmptyString => Raise ValueError
  | _ => int_base2_from 0 s
  end.

(** [''.join(parts)] *)
Definition join (parts : list string) : string :=
  foldr String.append EmptyString parts.

(** [to_internal_value(self, data)], from the dictionary that the parent
    [DictField] with a [BooleanField] child has already validated: string
    keys, boolean values. *)
Definition to_internal_value (data : gmap string bool) : result Z :=
  let keys := dom data in
  if negb (bool_decide (keys = list_to_set _keys)) then
    Raise (ValidationError "Permissions field: incorrect keys format")
  else
    digits ← for_each (λ key, b ← getitem data key; Ok (str_int_bool b)) _keys;
    int_base2 (join digits).

(** The JSON object for a quadruple of flags. *)
Definition permissions_dict (c r u d : bool) : gmap string bool :=
  <["create" := c]> (<["read" := r]> (<["update" := u]> (<["delete" := d]> ∅))).

(** The integer of a quadruple: create is bit 3, delete is bit 0. *)
Definition mask_of (c r u d : bool) : Z :=
  8 * Z.b2z c + 4 * Z.b2z r + 2 * Z.b2z u + Z.b2z d.

End PermissionsField.

(** ** [workflow/models.py] *)

Module Workflow.

Definition ROLE_ORGANIZATION_ADMIN : string := "OrgAdmin".

(** [django.contrib.auth.models.Group], the target of [AbstractUser.groups]. *)
Record Group : Type := { group_name : string }.

(** [CoreGroup]: a role with a CRUD mask, attached to at most one workflow
    level; with no workflow attached it is a global role. *)
Record CoreGroup : Type := {
  name : string;
  workflowlevel1 : option nat;
  workflowlevel2 : option nat;
  permissions : Z
}.

(** [CoreUser]; [_is_org_admin] is the attribute that [is_org_admin] sets
    on the instance ([None] while [hasattr] is false). *)
Record CoreUser : Type := {
  pk : nat;
  username : string;
  organization : option nat;
  core_groups : list CoreGroup;
  _is_org_admin : option bool
}.

(** The part of the database that [self.groups] reads: the membership rows
    (user, group) of [AbstractUser.groups], and the number of queries that
    have been evaluated against it. *)
Record Db : Type := {
  user_groups : list (nat * Group);
  queries : nat
}.

(** [self.groups.values_list('name', flat=True)], evaluated. *)
Definition groups_values_list_name (self : CoreUser) (db : Db)
  : list string * Db :=
  (map (λ row, group_name row.2)
       (filter (λ row, row.1 = pk self) (user_groups db)),
   {| user_groups := user_groups db; queries := S (queries db) |}).

(** [CoreUser.is_org_admin(self)] *)
Definition is_org_admin (self : CoreUser) (db : Db) : bool * CoreUser * Db :=
  match _is_org_admin self with
  | None =>
      let '(names, db') := groups_values_list_name self db in
      let v := bool_decide (ROLE_ORGANIZATION_ADMIN ∈ names) in
      (v,
       {| pk := pk self; username := username self;
          organization := organization self;
          core_groups := core_groups self;
          _is_org_admin := Some v |},
       db')
  | Some v => (v, self, db)
  end.

(** Successive calls of [is_org_admin] on one instance; before the [i]-th
    call the membership table is replaced by the [i]-th element of
    [tables] (what other writers did to it in between). *)
Fixpoint is_org_admin_calls (self : CoreUser) (n_queries : nat)
    (tables : list (list (nat * Group))) : list bool * CoreUser * nat :=
  match tables with
  | [] => ([], self, n_queries)
  | t :: tables' =>
      let '(v, self', db') :=
        is_org_admin self {| user_groups := t; queries := n_queries |} in
      let '(vs, self'', n') := is_org_admin_calls self' (queries db') tables' in
      (v :: vs, self'', n')
  end.

(** [CoreGroup.display_permissions] *)
Definition display_permissions (self : CoreGroup) : string :=
  PermissionsField.format_b
    (if permissions self <? 16 then permissions self else 15).

(** The organization-admin rule in the words of the specification: some
    group of the user carries the full mask 15 at organization or global
    scope, that is, with no workflow level attached. *)
Definition full_mask_at_org_or_global_scope (u : CoreUser) : bool :=
  existsb
    (λ g, (permissions g =? 15)
          && bool_decide (workflowlevel1 g = None)
          && bool_decide (workflowlevel2 g = None))
    (core_groups u).

(** The user is a member of a group named [OrgAdmin] in the table. *)
Definition in_org_admin_role (self : CoreUser) (table : list (nat * Group)) : Prop :=
  ∃ g, (pk self, g) ∈ table ∧ group_name g = ROLE_ORGANIZATION_ADMIN.

End Workflow.

(** ** The store behind [core.models] and the outside world *)

Module Core.

(** Rows of the tables that the serializers and views touch, with the
    fields they read or write. *)
Record Organization : Type := {
  org_pk : nat;
  organization_uuid : string;
  org_name : string
}.

Record CoreGroup : Type := {
  grp_pk : nat;
  grp_name : string;
  is_global : bool;
  is_org_level : bool;
  permissions : Z;
  grp_organization : option nat
}.

Inductive password_field : Type :=
  | RawPassword (raw : string)
  | HashedPassword (raw : string).

Record CoreUser : Type := {
  pk : nat;
  username : string;
  email : string;
  first_name : string;
  password : password_field;
  is_active : bool;
  organization : option nat
}.

Record EmailTemplate : Type := {
  tpl_organization : nat;
  tpl_type : Z;
  subject : string;
  template : option string;
  template_html : option string
}.

(** What an operation does to the outside world. *)
Inductive event : Type :=
  | ResetTokenMinted (user_pk : nat) (token : string)
  | InvitationTokenMinted (address : string) (org : option nat) (token : string)
  | EmailSent (recipient : string) (subj : string) (text : string)
      (html : option string).

Record World : Type := {
  organizations : list Organization;
  coregroups : list CoreGroup;
  coreusers : list CoreUser;
  (** the many-to-many table behind [CoreUser.core_groups]: (user, group) *)
  coreuser_core_groups : list (nat * nat);
  emailtemplates : list EmailTemplate;
  (** the next primary key the database hands out *)
  next_pk : nat;
  (** tokens minted and e-mails sent so far, oldest first *)
  trace : list event
}.

Definition with_organizations (v : list Organization) (w : World) : World :=
  {| organizations := v; coregroups := coregroups w; coreusers := coreusers w;
     coreuser_core_groups := coreuser_core_groups w;
     emailtemplates := emailtemplates w; next_pk := next_pk w; trace := trace w |}.

Definition with_coregroups (v : list CoreGroup) (w : World) : World :=
  {| organizations := organizations w; coregroups := v; coreusers := coreusers w;
     coreuser_core_groups := coreuser_core_groups w;
     emailtemplates := emailtemplates w; next_pk := next_pk w; trace := trace w |}.

Definition with_coreusers (v : list CoreUser) (w : World) : World :=
  {| organizations := organizations w; coregroups := coregroups w; coreusers := v;
     coreuser_core_groups := coreuser_core_groups w;
     emailtemplates := emailtemplates w; next_pk := next_pk w; trace := trace w |}.

Definition with_coreuser_core_groups (v : list (nat * nat)) (w : World) : World :=
  {| organizations := organizations w; coregroups := coregroups w;
     coreusers := coreusers w; coreuser_core_groups := v;
     emailtemplates := emailtemplates w; next_pk := next_pk w; trace := trace w |}.

Definition with_next_pk (v : nat) (w : World) : World :=
  {| organizations := organizations w; coregroups := coregroups w;
     coreusers := coreusers w; coreuser_core_groups := coreuser_core_groups w;
     emailtemplates := emailtemplates w; next_pk := v; trace := trace w |}.

Definition with_trace (v : list event) (w : World) : World :=
  {| organizations := organizations w; coregroups := coregroups w;
     coreusers := coreusers w; coreuser_core_groups := coreuser_core_groups w;
     emailtemplates := emailtemplates w; next_pk := next_pk w; trace := v |}.

(** Code that reads and writes the store and may raise: the store is
    threaded through, and an exception leaves it as it was when raised
    (the serializers open no transaction of their own). *)
Definition M (A : Type) : Type := World → result A * World.

#[export] Instance M_ret : MRet M := λ A a w, (Ok a, w).

#[export] Instance M_bind : MBind M := λ A B k m w,
  match m w with
  | (Ok a, w') => k a w'
  | (Raise e, w') => (Raise e, w')
  end.

Definition raise {A} (e : exn) : M A := λ w, (Raise e, w).
Definition gets {A} (f : World → A) : M A := λ w, (Ok (f w), w).
Definition modify (f : World → World) : M unit := λ w, (Ok tt, f w).
Definition emit (e : event) : M unit :=
  modify (λ w, with_trace (trace w ++ [e]) w).

(** A fresh primary key. *)
Definition fresh_pk : M nat :=
  λ w, (Ok (next_pk w), with_next_pk (S (next_pk w)) w).

(** [queryset.get()]: exactly one row, or an exception. *)
Definition get_one {A} (rows : list A) : M A :=
  match rows with
  | [row] => mret row
  | [] => raise DoesNotExist
  | _ => raise MultipleObjectsReturned
  end.

(** [for x in xs: body(x)] *)
Fixpoint for_ {A} (xs : list A) (body : A → M unit) : M unit :=
  match xs with
  | [] => mret tt
  | x :: xs' => _ ← body x; for_ xs' body
  end.

(** Every key in the store is below the next key to be handed out. *)
Definition keys_below (w : World) : bool :=
  forallb (λ o, org_pk o <? next_pk w)%nat (organizations w)
  && forallb (λ g, (grp_pk g <? next_pk w)%nat
                   && from_option (λ o, o <? next_pk w)%nat true (grp_organization g))
             (coregroups w)
  && forallb (λ u, pk u <? next_pk w)%nat (coreusers w)
  && forallb (λ row, (row.1 <? next_pk w)%nat && (row.2 <? next_pk w)%nat)
             (coreuser_core_groups w).

(** Values of a template context. *)
Inductive ctx_value : Type :=
  | CtxStr (s : string)
  | CtxUser (u : CoreUser).

(** A Python value is true unless it is [None] or empty. *)
Definition truthy_str (s : option string) : bool :=
  match s with
  | Some s => negb (String.eqb s EmptyString)
  | None => false
  end.

Section EmailUtils.

(** The mail backend: how many messages it reports as sent for a message. *)
Variable mail_backend : string → string → string → option string → nat.
(** [render_to_string(template_name, context)] of the template engine. *)
Variable render_to_string : string → gmap string ctx_value → string.

(** Modelled from the spec: [send_email_body] of [core.email_utils], the
    notifier "send(recipient_email, subject, templated_body) -> success
    count": the message is handed to the mail backend and the number of
    messages sent is returned. *)
Definition send_email_body (recipient subj text : string)
    (html : option string) : M nat :=
  _ ← emit (EmailSent recipient subj text html);
  mret (mail_backend recipient subj text html).

(** Modelled from the spec: [send_email] of [core.email_utils], which
    renders the two named templates with the context and sends the result
    as [send_email_body] does. *)
Definition send_email (recipient subj : string)
    (context : gmap string ctx_value)
    (template_name html_template_name : string) : M nat :=
  send_email_body recipient subj
    (render_to_string template_name context)
    (Some (render_to_string html_template_name context)).

End EmailUtils.

End Core.

(** ** [CoreUserWritableSerializer] (core/serializers.py) *)

Module CoreUserWritableSerializer.
Import Core.

(** Modelled from the spec: the constant [PERMISSIONS_ORG_ADMIN] that
    [core.models] exports, the full mask 1111. *)
Definition PERMISSIONS_ORG_ADMIN : Z := 15.

(** [validated_data]: the keys that [create] pops or writes, and the
    remaining keyword arguments of [CoreUser.objects.create]. The field
    validators have run: [organization_name] and [password] are present,
    [core_groups] holds primary keys of existing groups. *)
Record validated_data : Type := {
  vd_organization_name : string;
  vd_core_groups : option (list nat);
  vd_is_active : option bool;
  vd_password : string;
  vd_username : string;
  vd_email : string;
  vd_first_name : string
}.

(** [validated_data['is_active'] = v] *)
Definition set_is_active (v : bool) (d : validated_data) : validated_data :=
  {| vd_organization_name := vd_organization_name d;
     vd_core_groups := vd_core_groups d;
     vd_is_active := Some v;
     vd_password := vd_password d;
     vd_username := vd_username d;
     vd_email := vd_email d;
     vd_first_name := vd_first_name d |}.

(** [coreuser.set_password(raw)] on the instance. *)
Definition set_password (u : CoreUser) (raw : string) : CoreUser :=
  {| pk := pk u; username := username u; email := email u;
     first_name := first_name u; password := HashedPassword raw;
     is_active := is_active u; organization := organization u |}.

Section Create.

(** [uuid.uuid4], as the identifier it yields for the row with a given key. *)
Variable uuid4 : nat → string.

(** Modelled from the spec: the creation of the org-admin group of a new
    organization, which the repository performs when an organization row is
    first saved, outside the files at hand ("a global org-admin CoreGroup
    with mask 1111 is created"). The group is the one [create] looks up:
    of the organization, organization-level, with the full mask. *)
Definition organization_post_save (org : Organization) : M unit :=
  gpk ← fresh_pk;
  modify (λ w, with_coregroups
    (coregroups w ++
       [{| grp_pk := gpk; grp_name := "Org Admin"; is_global := false;
           is_org_level := true; permissions := PERMISSIONS_ORG_ADMIN;
           grp_organization := Some (org_pk org) |}]) w).

(** [Organization.objects.get_or_create(name=name)] *)
Definition organization_get_or_create (name : string) : M (Organization * bool) :=
  rows ← gets (λ w, filter (λ o, org_name o = name) (organizations w));
  match rows with
  | [] =>
      opk ← fresh_pk;
      let org := {| org_pk := opk; organization_uuid := uuid4 opk;
                    org_name := name |} in
      _ ← modify (λ w, with_organizations (organizations w ++ [org]) w);
      _ ← organization_post_save org;
      mret (org, true)
  | [org] => mret (org, false)
  | _ => raise MultipleObjectsReturned
  end.

(** [CoreUser.objects.create(organization=organization, **validated_data)]
    with [organization] and [core_groups] already popped; [is_active]
    defaults to true when the key is absent. *)
Definition coreuser_objects_create (org : Organization) (d : validated_data)
  : M CoreUser :=
  upk ← fresh_pk;
  let u := {| pk := upk; username := vd_username d; email := vd_email d;
              first_name := vd_first_name d;
              password := RawPassword (vd_password d);
              is_active := default true (vd_is_active d);
              organization := Some (org_pk org) |} in
  _ ← modify (λ w, with_coreusers (coreusers w ++ [u]) w);
  mret u.

(** [coreuser.save()]: the row with the instance's key is rewritten. *)
Definition coreuser_save (u : CoreUser) : M unit :=
  modify (λ w, with_coreusers
    (map (λ row, if bool_decide (pk row = pk u) then u else row) (coreusers w)) w).

(** [coreuser.core_groups.add(group)]: adding a group twice keeps one row. *)
Definition core_groups_add (u : CoreUser) (group : nat) : M unit :=
  modify (λ w,
    if bool_decide ((pk u, group) ∈ coreuser_core_groups w) then w
    else with_coreuser_core_groups (coreuser_core_groups w ++ [(pk u, group)]) w).

(** [CoreGroup.objects.get(organization=organization, is_org_level=True,
    permissions=PERMISSIONS_ORG_ADMIN)] *)
Definition get_group_org_admin (org : Organization) : M CoreGroup :=
  rows ← gets (λ w, filter
    (λ g, grp_organization g = Some (org_pk org)
          ∧ is_org_level g = true
          ∧ permissions g = PERMISSIONS_ORG_ADMIN) (coregroups w));
  get_one rows.

(** [create(self, validated_data)] *)
Definition create (validated_data : validated_data) : M CoreUser :=
  (* get or create organization *)
  '(organization, is_new_org) ←
    organization_get_or_create (vd_organization_name validated_data);
  let core_groups := default [] (vd_core_groups validated_data) in
  (* force the 'is_active flag = true' for all users *)
  let validated_data := set_is_active true validated_data in
  coreuser ← coreuser_objects_create organization validated_data;
  (* set user password *)
  let coreuser := set_password coreuser (vd_password validated_data) in
  _ ← coreuser_save coreuser;
  (* add org admin role to the user if org is new *)
  _ ← (if is_new_org : bool then
         group_org_admin ← get_group_org_admin organization;
         core_groups_add coreuser (grp_pk group_org_admin)
       else mret tt);
  (* add requested groups to the user *)
  _ ← for_ core_groups (λ group, core_groups_add coreuser group);
  mret coreuser.

End Create.

End CoreUserWritableSerializer.

(** ** [CoreUserResetPasswordSerializer] (core/serializers.py) *)

Module CoreUserResetPasswordSerializer.
Import Core.

(** [TEMPLATE_RESET_PASSWORD, TEMPLATE_INVITE = 1, 2] *)
Definition TEMPLATE_RESET_PASSWORD : Z := 1.

Section Save.

Variable mail_backend : string → string → string → option string → nat.
Variable render_to_string : string → gmap string ctx_value → string.
(** [Template(source).render(Context(context))] *)
Variable render_source : string → gmap string ctx_value → string.
(** [urljoin(settings.FRONTEND_URL, settings.RESETPASS_CONFIRM_URL_PATH)] *)
Variable resetpass_confirm_url : string.
(** [settings.DEFAULT_ORG] *)
Variable DEFAULT_ORG : string.
(** [urlsafe_base64_encode(force_bytes(pk))] *)
Variable urlsafe_uid : nat → string.
(** [default_token_generator.make_token(user)] *)
Variable make_token : CoreUser → string.

(** [EmailTemplate.objects.filter(organization=org, type=t).first()] *)
Definition template_of_organization (org : option nat) (t : Z) (w : World)
  : option EmailTemplate :=
  head (filter (λ tpl, Some (tpl_organization tpl) = org ∧ tpl_type tpl = t)
               (emailtemplates w)).

(** [EmailTemplate.objects.filter(organization__name=name, type=t).first()] *)
Definition template_of_organization_name (name : string) (t : Z) (w : World)
  : option EmailTemplate :=
  head (filter
    (λ tpl, tpl_type tpl = t
            ∧ Exists (λ o, org_pk o = tpl_organization tpl ∧ org_name o = name)
                     (organizations w))
    (emailtemplates w)).

(** The body of the loop of [save] for one user; [count] is the running
    total and the new total is returned. *)
Definition save_user (email : string) (count : nat) (user : CoreUser) : M nat :=
  let uid := urlsafe_uid (pk user) in
  let token := make_token user in
  _ ← emit (ResetTokenMinted (pk user) token);
  let context : gmap string ctx_value :=
    (* resetpass_url.format(uid=uid, token=token) *)
    <["password_reset_link" :=
        CtxStr (resetpass_confirm_url +:+ uid +:+ "/" +:+ token +:+ "/")]>
      (<["user" := CtxUser user]> ∅) in
  (* get specific subj and templates for user's organization *)
  tpl ← gets (template_of_organization (organization user) TEMPLATE_RESET_PASSWORD);
  tpl ← (match tpl with
         | Some _ => mret tpl
         | None => gets (template_of_organization_name DEFAULT_ORG
                           TEMPLATE_RESET_PASSWORD)
         end);
  match tpl with
  | Some tpl' =>
      if truthy_str (template tpl') then
        let text_content := render_source (default EmptyString (template tpl')) context in
        let html_content :=
          if truthy_str (template_html tpl')
          then Some (render_source (default EmptyString (template_html tpl')) context)
          else None in
        sent ← send_email_body mail_backend email (subject tpl') text_content html_content;
        mret (count + sent)%nat
      else
        (* default subject and templates *)
        sent ← send_email mail_backend render_to_string email "Reset your password"
                 context "email/coreuser/password_reset.txt"
                 "email/coreuser/password_reset.html";
        mret (count + sent)%nat
  | None =>
      sent ← send_email mail_backend render_to_string email "Reset your password"
               context "email/coreuser/password_reset.txt"
               "email/coreuser/password_reset.html";
      mret (count + sent)%nat
  end.

(** [for user in users: ...] with the running [count]. *)
Fixpoint save_loop (email : string) (count : nat) (users : list CoreUser)
  : M nat :=
  match users with
  | [] => mret count
  | user :: users' =>
      count' ← save_user email count user;
      save_loop email count' users'
  end.

(** [CoreUser.objects.filter(email=email, is_active=True)] *)
Definition active_users_with_email (address : string) (w : World)
  : list CoreUser :=
  filter (λ u, email u = address ∧ is_active u = true) (coreusers w).

(** [save(self)], with [email = self.validated_data["email"]] *)
Definition save (email : string) : M nat :=
  users ← gets (active_users_with_email email);
  save_loop email 0%nat users.

(** A notification as sent: subject, text and HTML alternative. *)
Definition message : Type := string * string * option string.

(** What [save] does for one user: a token is minted for that user and a
    message is sent to the address. *)
Definition reset_events (address : string) (sent : CoreUser * message)
  : list event :=
  let '(user, (subj, text, html)) := sent in
  [ResetTokenMinted (pk user) (make_token user);
   EmailSent address subj text html].

(** What the mail backend reports for a message to the address. *)
Definition dispatched (address : string) (m : message) : nat :=
  let '(subj, text, html) := m in mail_backend address subj text html.

End Save.

End CoreUserResetPasswordSerializer.

(** ** Signed tokens *)

Module Token.
Import Core.

(** The values of the claims that the code reads from a decoded token. *)
Inductive json : Type :=
  | JNull
  | JString (s : string)
  | JNumber (n : Z).

#[export] Instance json_eq_dec : EqDecision json.
Proof. solve_decision. Defined.

(** Truth value of a claim in a conditional. *)
Definition truthy (v : json) : bool :=
  match v with
  | JNull => false
  | JString s => negb (String.eqb s EmptyString)
  | JNumber n => negb (n =? 0)
  end.

(** What [jwt.decode(token, settings.SECRET_KEY, algorithms='HS256')]
    does with a token: it returns the claims or raises. The views take the
    decoder as a parameter of this type. *)
Inductive jwt_outcome : Type :=
  | Decoded (claims : gmap string json)
  | JwtRaises (e : jwt_exception).

(** A column of type text compared with a claim in a [filter]. *)
Definition column_is (column : string) (v : json) : Prop :=
  match v with
  | JNull => False
  | JString s => column = s
  | JNumber n => column = pretty n
  end.

#[export] Instance column_is_dec column v : Decision (column_is column v).
Proof. destruct v; simpl; apply _. Defined.

(** [CoreUser.objects.filter(email=v).exists()] *)
Definition coreuser_with_email_exists (v : json) (w : World) : bool :=
  bool_decide (Exists (λ u, column_is (email u) v) (coreusers w)).

End Token.

(** ** [CoreUserSerializer.validate_invitation_token] (core/serializers.py) *)

Module CoreUserSerializer.
Import Core Token.

Section Validate.

Variable jwt_decode : string → jwt_outcome.

(** [validate_invitation_token(self, value)]; [initial_data] is
    [self.initial_data]. The [try] block covers the whole body, and its
    two handlers catch [jwt.DecodeError] and [jwt.ExpiredSignatureError]
    only. *)
Definition validate_invitation_token (w : World)
    (initial_data : gmap string json) (value : string) : result string :=
  match jwt_decode value with
  | JwtRaises e =>
      if is_DecodeError e then Raise (ValidationError "Token is not valid.")
      else if is_ExpiredSignatureError e then Raise (ValidationError "Token is expired.")
      else Raise (JwtError e)
  | Decoded decoded =>
      claimed ← getitem decoded "email";
      let coreuser_exists := coreuser_with_email_exists claimed w in
      rejected ← (if coreuser_exists then Ok true
                  else
                    claimed ← getitem decoded "email";
                    given ← getitem initial_data "email";
                    Ok (negb (bool_decide (claimed = given))));
      if rejected : bool then Raise (ValidationError "Token is not valid.")
      else Ok value
  end.

End Validate.

End CoreUserSerializer.

(** ** [CoreUserInvitationSerializer] (core/serializers.py) *)

Module CoreUserInvitationSerializer.

(** [emails = ListField(child=EmailField(), min_length=1, max_length=10)] *)
Definition min_length : nat := 1.
Definition max_length : nat := 10.

Section Validation.

(** The validator of [EmailField]. *)
Variable valid_email : string → bool.

(** [serializer.is_valid(raise_exception=True)] on the request data, of
    which [data] is the value under ['emails'] if there is one: the field
    is required, every element goes through the child field, and the
    length validators run on the result. *)
Definition is_valid (data : option (list string)) : result (list string) :=
  match data with
  | None => Raise (ValidationError "This field is required.")
  | Some emails =>
      if negb (forallb valid_email emails) then
        Raise (ValidationError "Enter a valid email address.")
      else if (max_length <? length emails)%nat then
        Raise (ValidationError "Ensure this field has no more than 10 elements.")
      else if (length emails <? min_length)%nat then
        Raise (ValidationError "Ensure this field has at least 1 elements.")
      else Ok emails
  end.

End Validation.

End CoreUserInvitationSerializer.

(** ** [CoreUserViewSet] (core/views/coreuser.py) *)

Module CoreUserViewSet.
Import Core Token.

Definition HTTP_200_OK : Z := 200.
Definition HTTP_401_UNAUTHORIZED : Z := 401.

(** The payloads of the responses. *)
Inductive body : Type :=
  | Detail (detail : string)
  | Invitations (detail : string) (invitations : list string)
  | InviteCheck (email : json) (organization : option (string * string))
  | InviteEventCheck (email organization room_uuid event_uuid : json).

Inductive response : Type :=
  | Response (data : body) (status : Z).

Section Views.

Variable jwt_decode : string → jwt_outcome.
Variable valid_email : string → bool.
Variable mail_backend : string → string → string → option string → nat.
Variable render_to_string : string → gmap string ctx_value → string.
(** [create_invitation_token(email_address, organization)] of
    [core.jwt_utils]. *)
Variable create_invitation_token : string → option Organization → string.
(** [urljoin(settings.FRONTEND_URL, settings.REGISTRATION_URL_PATH)] *)
Variable registration_url : string.
(** [self.request.build_absolute_uri(location)] *)
Variable build_absolute_uri : string → string.
(** [user.name if hasattr(user, 'coreuser') else ''] *)
Variable org_admin_name : CoreUser → string.

(** [user.organization]: the row the foreign key points to. *)
Definition organization_of (user : CoreUser) (w : World) : option Organization :=
  match organization user with
  | Some opk => head (filter (λ o, org_pk o = opk) (organizations w))
  | None => None
  end.

(** The body of the loop of [perform_invite] for one address. *)
Definition invite_address (user : CoreUser) (organization : option Organization)
    (registered_emails : list string) (links : list string)
    (email_address : string) : M (list string) :=
  if bool_decide (email_address ∉ registered_emails) then
    (* create or update an invitation *)
    let token := create_invitation_token email_address organization in
    _ ← emit (InvitationTokenMinted email_address (org_pk <$> organization) token);
    (* build the invitation link *)
    let invitation_link :=
      build_absolute_uri (registration_url +:+ "?token=" +:+ token) in
    let links := links ++ [invitation_link] in
    (* create the used context for the E-mail templates *)
    let context : gmap string ctx_value :=
      <["invitation_link" := CtxStr invitation_link]>
        (<["org_admin_name" := CtxStr (org_admin_name user)]>
          (<["organization_name" :=
               CtxStr (from_option org_name EmptyString organization)]> ∅)) in
    _ ← send_email mail_backend render_to_string email_address
          "Application Access" context
          "email/coreuser/invitation.txt" "email/coreuser/invitation.html";
    mret links
  else mret links.

Fixpoint perform_invite_loop (user : CoreUser) (organization : option Organization)
    (registered_emails : list string) (links : list string)
    (email_addresses : list string) : M (list string) :=
  match email_addresses with
  | [] => mret links
  | email_address :: rest =>
      links' ← invite_address user organization registered_emails links email_address;
      perform_invite_loop user organization registered_emails links' rest
  end.

(** [perform_invite(self, serializer)], with [user = self.request.user] and
    [email_addresses = serializer.validated_data.get('emails')] *)
Definition perform_invite (user : CoreUser) (email_addresses : list string)
  : M (list string) :=
  organization ← gets (organization_of user);
  registered_emails ← gets (λ w,
    map email (filter (λ u, email u ∈ email_addresses) (coreusers w)));
  perform_invite_loop user organization registered_emails [] email_addresses.

(** [invite(self, request)]: [data] is the value of ['emails'] in
    [request.data], if any. *)
Definition invite (user : CoreUser) (data : option (list string)) : M response :=
  match CoreUserInvitationSerializer.is_valid valid_email data with
  | Raise e => raise e
  | Ok email_addresses =>
      links ← perform_invite user email_addresses;
      mret (Response
              (Invitations "The invitations were sent successfully." links)
              HTTP_200_OK)
  end.

(** [invite_check(self, request)] *)
Definition invite_check (query_params : gmap string string) (w : World)
  : result response :=
  match query_params !! "token" with
  | None => Ok (Response (Detail "No token is provided.") HTTP_401_UNAUTHORIZED)
  | Some token =>
      match jwt_decode token with
      | JwtRaises e =>
          if is_DecodeError e then
            Ok (Response (Detail "Token is not valid.") HTTP_401_UNAUTHORIZED)
          else if is_ExpiredSignatureError e then
            Ok (Response (Detail "Token is expired.") HTTP_401_UNAUTHORIZED)
          else Raise (JwtError e)
      | Decoded decoded =>
          claimed ← getitem decoded "email";
          if coreuser_with_email_exists claimed w then
            Ok (Response (Detail "Token has been used.") HTTP_401_UNAUTHORIZED)
          else
            org_uuid ← getitem decoded "org_uuid";
            organization ←
              (if truthy org_uuid then
                 org_uuid ← getitem decoded "org_uuid";
                 match filter (λ o, column_is (organization_uuid o) org_uuid)
                              (organizations w) with
                 | [o] => Ok (Some (organization_uuid o, org_name o))
                 | [] => Raise DoesNotExist
                 | _ => Raise MultipleObjectsReturned
                 end
               else Ok None);
            claimed ← getitem decoded "email";
            Ok (Response (InviteCheck claimed organization) HTTP_200_OK)
      end
  end.

(** [invite_event_check(self, request)] *)
Definition invite_event_check (query_params : gmap string string)
  : result response :=
  match query_params !! "token" with
  | None => Ok (Response (Detail "No token is provided.") HTTP_401_UNAUTHORIZED)
  | Some token =>
      match jwt_decode token with
      | JwtRaises e =>
          if is_DecodeError e then
            Ok (Response (Detail "Token is not valid.") HTTP_401_UNAUTHORIZED)
          else if is_ExpiredSignatureError e then
            Ok (Response (Detail "Token is expired.") HTTP_401_UNAUTHORIZED)
          else Raise (JwtError e)
      | Decoded decoded =>
          claimed ← getitem decoded "email";
          organization ← getitem decoded "organization";
          room_uuid ← getitem decoded "room_uuid";
          event_uuid ← getitem decoded "event_uuid";
          Ok (Response (InviteEventCheck claimed organization room_uuid event_uuid)
                       HTTP_200_OK)
      end
  end.

End Views.

End CoreUserViewSet.

(** ** A small store and its collaborators, for concrete runs *)

Module Sample.
Import Core Token.

Definition acme : Organization :=
  {| org_pk := 1; organization_uuid := "6f1c-acme"; org_name := "Acme" |}.

Definition acme_admins : CoreGroup :=
  {| grp_pk := 2; grp_name := "Org Admin"; is_global := false;
     is_org_level := true; permissions := 15; grp_organization := Some 1%nat |}.

Definition ann : CoreUser :=
  {| pk := 3; username := "ann"; email := "ann@example.com";
     first_name := "Ann"; password := HashedPassword "s3cret";
     is_active := true; organization := Some 1%nat |}.

(** A second active account and a retired one with the same address. *)
Definition ann_again : CoreUser :=
  {| pk := 4; username := "ann2"; email := "ann@example.com";
     first_name := "Ann"; password := HashedPassword "s3cret2";
     is_active := true; organization := Some 1%nat |}.

Definition ann_retired : CoreUser :=
  {| pk := 5; username := "ann0"; email := "ann@example.com";
     first_name := "Ann"; password := HashedPassword "old";
     is_active := false; organization := Some 1%nat |}.

Definition world : World :=
  {| organizations := [acme]; coregroups := [acme_admins];
     coreusers := [ann; ann_again; ann_retired];
     coreuser_core_groups := [(3%nat, 2%nat)];
     emailtemplates := []; next_pk := 6; trace := [] |}.

(** The claims of an invitation for a registered address and of an
    event invitation for an address that is not registered. *)
Definition invitation_of_ann : gmap string json :=
  {[ "email" := JString "ann@example.com"; "org_uuid" := JString "6f1c-acme" ]}.

Definition event_invitation_of_eve : gmap string json :=
  {[ "email" := JString "eve@example.com"; "organization" := JString "Acme";
     "room_uuid" := JString "room-1"; "event_uuid" := JString "event-1" ]}.

Definition jwt_decode (token : string) : jwt_outcome :=
  if String.eqb token "invite.ann" then Decoded invitation_of_ann
  else if String.eqb token "event.eve" then Decoded event_invitation_of_eve
  else if String.eqb token "expired" then JwtRaises ExpiredSignatureError
  else if String.eqb token "tampered" then JwtRaises InvalidSignatureError
  else JwtRaises DecodeError.

Definition uuid4 (key : nat) : string := ("uuid-" +:+ pretty key)%string.

Definition valid_email (address : string) : bool := negb (String.eqb address EmptyString).

(** A mail backend that delivers every message. *)
Definition mail_backend (recipient subj text : string) (html : option string)
  : nat := 1.

Definition render (template_name : string) (context : gmap string ctx_value)
  : string := template_name.

Definition make_token (user : CoreUser) : string :=
  ("reset-" +:+ username user)%string.

Definition urlsafe_uid (key : nat) : string := pretty key.

Definition create_invitation_token (address : string)
    (org : option Organization) : string := ("invite." +:+ address)%string.

(** Eve signs up under the name of the existing organization and asks
    for its admin group. *)
Definition eve_signup : CoreUserWritableSerializer.validated_data :=
  {| CoreUserWritableSerializer.vd_organization_name := "Acme";
     CoreUserWritableSerializer.vd_core_groups := Some [2%nat];
     CoreUserWritableSerializer.vd_is_active := Some false;
     CoreUserWritableSerializer.vd_password := "pw";
     CoreUserWritableSerializer.vd_username := "eve";
     CoreUserWritableSerializer.vd_email := "eve@example.com";
     CoreUserWritableSerializer.vd_first_name := "Eve" |}.

(** Bob signs up under a name that no organization bears. *)
Definition bob_signup : CoreUserWritableSerializer.validated_data :=
  {| CoreUserWritableSerializer.vd_organization_name := "Globex";
     CoreUserWritableSerializer.vd_core_groups := None;
     CoreUserWritableSerializer.vd_is_active := Some false;
     CoreUserWritableSerializer.vd_password := "pw";
     CoreUserWritableSerializer.vd_username := "bob";
     CoreUserWritableSerializer.vd_email := "bob@example.com";
     CoreUserWritableSerializer.vd_first_name := "Bob" |}.

End Sample.

(** ** [CoreUserViewSet.perform_invite]: who is invited, and with what *)

Module Invitations.
Import Core Token.

Section Invitations.

Variable render_to_string : string → gmap string ctx_value → string.
Variable create_invitation_token : string → option Organization → string.
Variable registration_url : string.
Variable build_absolute_uri : string → string.
Variable org_admin_name : CoreUser → string.

(** The addresses of the list that no user has, in the order of the list. *)
Definition unregistered (w : World) (addresses : list string) : list string :=
  filter (λ address, address ∉ email <$> coreusers w) addresses.

(** The link that carries the invitation of an address. *)
Definition invitation_link (organization : option Organization)
    (address : string) : string :=
  build_absolute_uri
    (registration_url +:+ "?token="
       +:+ create_invitation_token address organization).

(** What inviting one address leaves in the trace. *)
Definition invitation_events (user : CoreUser)
    (organization : option Organization) (address : string) : list event :=
  let context : gmap string ctx_value :=
    <["invitation_link" := CtxStr (invitation_link organization address)]>
      (<["org_admin_name" := CtxStr (org_admin_name user)]>
        (<["organization_name" :=
             CtxStr (from_option org_name EmptyString organization)]> ∅)) in
  [InvitationTokenMinted address (org_pk <$> organization)
     (create_invitation_token address organization);
   EmailSent address "Application Access"
     (render_to_string "email/coreuser/invitation.txt" context)
     (Some (render_to_string "email/coreuser/invitation.html" context))].

End Invitations.

End Invitations.

(** ** [CoreUserViewSet.list] and [CoreUserViewSet.invite_event]
    (core/views/coreuser.py) *)

Module CoreUserViewSetMore.
Import Core Token.

(** [request.data] of an event invitation: each key may be absent. *)
Record invite_event_data : Type := {
  room_uuid : option string;
  event_uuid : option string;
  emails : option (list string);
  event_name : option string;
  organization_name : option string
}.

(** The payload of the answer of [invite_event]: the list of links, nested
    in a list of its own. *)
Inductive event_response : Type :=
  | EventResponse (detail : string) (event_link : list (list string))
      (status : Z).

Section Views.

(** [self.filter_queryset(queryset)] with the filter backend of the view. *)
Variable filter_queryset : list CoreUser → list CoreUser.
(** [user.is_global_admin] of [core.models]. *)
Variable is_global_admin : CoreUser → bool.
(** The validators of [UUIDField] and [CharField]. *)
Variable valid_uuid : string → bool.
Variable valid_char : string → bool.
Variable mail_backend : string → string → string → option string → nat.
Variable render_to_string : string → gmap string ctx_value → string.
(** [create_invitation_token_event(email_address, organization, room_uuid,
    event_uuid)] of [core.jwt_utils]. *)
Variable create_invitation_token_event : string → string → string → string → string.
(** [urljoin(settings.FRONTEND_URL, settings.EVENT_LOGIN_URL_PATH)] *)
Variable event_login_url : string.
(** [urljoin(settings.FRONTEND_URL, settings.EVENT_REGISTRATION_URL_PATH)] *)
Variable event_registration_url : string.
Variable build_absolute_uri : string → string.

(** [list(self, request)], with [user = request.user]; the answer carries
    the serialized rows of the queryset. *)
Definition list_ (user : CoreUser) (w : World) : list CoreUser :=
  (* Use this queryset or the django-filters lib will not work *)
  let queryset := filter_queryset (coreusers w) in
  if negb (is_global_admin user) then
    let organization_id := organization user in
    filter (λ u, organization u = organization_id) queryset
  else queryset.

(** [serializer.is_valid(raise_exception=True)] of
    [CoreUserEventInvitationSerializer]: every field is required, the two
    identifiers are UUIDs, [emails] is a list of 1 to 10 strings. *)
Definition is_valid (data : invite_event_data) : result unit :=
  match room_uuid data, event_uuid data, emails data,
        event_name data, organization_name data with
  | Some room, Some event, Some addresses, Some name, Some org =>
      if negb (valid_uuid room && valid_uuid event
               && forallb valid_char addresses
               && valid_char name && valid_char org) then
        (* the messages of the fields that fail are those of the framework *)
        Raise (ValidationError "Invalid input.")
      else if (10 <? length addresses)%nat then
        Raise (ValidationError "Ensure this field has no more than 10 elements.")
      else if (length addresses <? 1)%nat then
        Raise (ValidationError "Ensure this field has at least 1 elements.")
      else Ok tt
  | _, _, _, _, _ => Raise (ValidationError "This field is required.")
  end.

(** [str(user.organization)] *)
Definition str_organization (user : CoreUser) (w : World) : string :=
  from_option org_name "None" (CoreUserViewSet.organization_of user w).

(** The body of the loop of [invite_event] for one address. *)
Definition invite_event_address (event_uuid room_uuid event_name
    organization_name : string) (invitation_link_list : list string)
    (email : string) : M (list string) :=
  user ← gets (λ w, head (filter (λ u, Core.email u = email) (coreusers w)));
  '(organization, reg_location) ←
    match user with
    | Some user =>
        (* if the user is registered *)
        organization ← gets (str_organization user);
        mret (organization, event_login_url)
    | None =>
        (* if the user is not registered *)
        mret (organization_name, event_registration_url)
    end;
  let token :=
    create_invitation_token_event email organization room_uuid event_uuid in
  let invitation_link :=
    build_absolute_uri (reg_location +:+ "?token=" +:+ token) in
  let invitation_link_list := invitation_link_list ++ [invitation_link] in
  let subj := ("Welcome to event " +:+ event_name +:+ " at " +:+ organization)%string in
  let context : gmap string ctx_value :=
    <["organization_name" := CtxStr organization]>
      (<["event_link" := CtxStr invitation_link]>
        (<["event_uuid" := CtxStr event_uuid]>
          (<["room_uuid" := CtxStr room_uuid]>
            (<["event_name" := CtxStr event_name]> ∅)))) in
  _ ← send_email mail_backend render_to_string email subj context
        "email/coreuser/invite_event.txt" "email/coreuser/invite_event.html";
  mret invitation_link_list.

Fixpoint invite_event_loop (event_uuid room_uuid event_name
    organization_name : string) (invitation_link_list : list string)
    (emails : list string) : M (list string) :=
  match emails with
  | [] => mret invitation_link_list
  | email :: rest =>
      links ← invite_event_address event_uuid room_uuid event_name
                organization_name invitation_link_list email;
      invite_event_loop event_uuid room_uuid event_name organization_name
        links rest
  end.

(** [request.data[key]] *)
Definition data_item {A} (key : string) (value : option A) : M A :=
  match value with
  | Some v => mret v
  | None => raise (KeyError key)
  end.

(** [invite_event(self, request)]: after validation, the view reads the
    request data itself, not the validated data. *)
Definition invite_event (data : invite_event_data) : M event_response :=
  match is_valid data with
  | Raise e => raise e
  | Ok _ =>
      event_uuid ← data_item "event_uuid" (event_uuid data);
      room_uuid ← data_item "room_uuid" (room_uuid data);
      emails ← data_item "emails" (emails data);
      event_name ← data_item "event_name" (event_name data);
      organization_name ← data_item "organization_name" (organization_name data);
      invitation_link_list ←
        invite_event_loop event_uuid room_uuid event_name organization_name
          [] emails;
      mret (EventResponse "The invitations were sent successfully."
              [invitation_link_list] CoreUserViewSet.HTTP_200_OK)
  end.

(** The link and the message of the event invitation of one address: the
    login page and the organization of the user when the address is
    registered, the registration page and the organization of the request
    when it is not. *)
Definition event_organization (organization_name : string) (w : World)
    (email : string) : string :=
  match head (filter (λ u, Core.email u = email) (coreusers w)) with
  | Some user => str_organization user w
  | None => organization_name
  end.

Definition event_link (event_uuid room_uuid organization_name : string)
    (w : World) (email : string) : string :=
  let location :=
    if bool_decide (email ∈ Core.email <$> coreusers w)
    then event_login_url else event_registration_url in
  build_absolute_uri
    (location +:+ "?token="
       +:+ create_invitation_token_event email
             (event_organization organization_name w email)
             room_uuid event_uuid).

Definition event_mail (event_uuid room_uuid event_name organization_name : string)
    (w : World) (email : string) : event :=
  let organization := event_organization organization_name w email in
  let context : gmap string ctx_value :=
    <["organization_name" := CtxStr organization]>
      (<["event_link" :=
           CtxStr (event_link event_uuid room_uuid organization_name w email)]>
        (<["event_uuid" := CtxStr event_uuid]>
          (<["room_uuid" := CtxStr room_uuid]>
            (<["event_name" := CtxStr event_name]> ∅)))) in
  EmailSent email
    ("Welcome to event " +:+ event_name +:+ " at " +:+ organization)
    (render_to_string "email/coreuser/invite_event.txt" context)
    (Some (render_to_string "email/coreuser/invite_event.html" context)).

End Views.

End CoreUserViewSetMore.

(** ** [CoreUserResetPasswordCheckSerializer] and
    [CoreUserResetPasswordConfirmSerializer] (core/serializers.py) *)

Module CoreUserResetPasswordCheckSerializer.
Import Core.

(** The detail of a validation error of a serializer: messages under a
    field, or under no field. *)
Inductive errors : Type :=
  | FieldErrors (field : string) (messages : list string)
  | NonFieldErrors (messages : list string).

(** What [validate] does: it returns, raises a validation error, or lets
    another exception through. *)
Inductive validation (A : Type) : Type :=
  | Valid (a : A)
  | Invalid (detail : errors)
  | Raises (e : exn).
Arguments Valid {A} a.
Arguments Invalid {A} detail.
Arguments Raises {A} e.

Section Validate.

(** [force_text(urlsafe_base64_decode(uid))] read as a primary key: nothing
    when the decoding or the reading raises [TypeError], [ValueError] or
    [OverflowError]. *)
Variable uid_to_pk : string → option nat.
(** [default_token_generator.check_token(user, token)] *)
Variable check_token : CoreUser → string → bool.
(** [password_validation.validate_password(password, user)]: the messages
    of the validation error it raises, none when it returns. *)
Variable validate_password : option string → CoreUser → list string.

(** [CoreUserResetPasswordCheckSerializer.validate(self, attrs)]; the user
    it stores in [self.user] is returned with the attributes. *)
Definition validate (attrs : gmap string string) (w : World)
  : validation (gmap string string * CoreUser) :=
  (* Decode the uidb64 to uid to get User object *)
  match attrs !! "uid" with
  | None => Raises (KeyError "uid")
  | Some uid =>
      match uid_to_pk uid with
      | None => Invalid (FieldErrors "uid" ["Invalid value"])
      | Some key =>
          match filter (λ u, pk u = key) (coreusers w) with
          | [] => Invalid (FieldErrors "uid" ["Invalid value"])
          | [user] =>
              (* Check the token *)
              match attrs !! "token" with
              | None => Raises (KeyError "token")
              | Some token =>
                  if negb (check_token user token)
                  then Invalid (FieldErrors "token" ["Invalid value"])
                  else Valid (attrs, user)
              end
          | _ => Raises MultipleObjectsReturned
          end
      end
  end.

(** [CoreUserResetPasswordConfirmSerializer.validate(self, attrs)] *)
Definition validate_confirm (attrs : gmap string string) (w : World)
  : validation (gmap string string * CoreUser) :=
  match validate attrs w with
  | Valid (attrs, user) =>
      let password1 := attrs !! "new_password1" in
      let password2 := attrs !! "new_password2" in
      if negb (bool_decide (password1 = password2)) then
        Invalid (NonFieldErrors ["The two password fields didn't match."])
      else
        match validate_password password2 user with
        | [] => Valid (attrs, user)
        | messages => Invalid (NonFieldErrors messages)
        end
  | Invalid detail => Invalid detail
  | Raises e => Raises e
  end.

(** [CoreUserResetPasswordConfirmSerializer.save(self)], with
    [self.validated_data] and [self.user] as [validate] left them. *)
Definition save (validated_data : gmap string string) (user : CoreUser)
  : M CoreUser :=
  match validated_data !! "new_password1" with
  | None => raise (KeyError "new_password1")
  | Some raw =>
      let user := CoreUserWritableSerializer.set_password user raw in
      _ ← CoreUserWritableSerializer.coreuser_save user;
      mret user
  end.

(** Validation followed by [save], as [reset_password_confirm] runs them:
    [serializer.is_valid(raise_exception=True); serializer.save()]. *)
Definition confirm (attrs : gmap string string) (w : World)
  : validation CoreUser * World :=
  match validate_confirm attrs w with
  | Valid (validated_data, user) =>
      match save validated_data user w with
      | (Ok user, w') => (Valid user, w')
      | (Raise e, w') => (Raises e, w')
      end
  | Invalid detail => (Invalid detail, w)
  | Raises e => (Raises e, w)
  end.

End Validate.

End CoreUserResetPasswordCheckSerializer.

(** ** [CoreUserProfileUpdateSerializer] (core/serializers.py) *)

Module CoreUserProfileUpdateSerializer.
Import Core.



End CoreUserProfileUpdateSerializer.

(** ** The [save] methods of [workflow/models.py] *)

Module Timestamps.

(** The two dates that [Industry], [Organization], [CoreUser],
    [Internationalization], [WorkflowLevel1], [WorkflowLevel2],
    [WorkflowTeam] and [WorkflowLevel2Sort] keep. *)
Record dates : Type := {
  create_date : option Z;
  edit_date : option Z
}.

(** [save(self)], with [now] the value of [timezone.now()]. *)
Definition save (now : Z) (self : dates) : dates :=
  {| create_date := match create_date self with
                    | None => Some now
                    | Some d => Some d
                    end;
     edit_date := Some now |}.

(** [save] at each of the instants of the list, in turn. *)
Definition saves (instants : list Z) (self : dates) : dates :=
  foldl (λ self now, save now self) self instants.

(** The two dates of [CoreSites]. *)
Record site_dates : Type := {
  created : option Z;
  updated : option Z
}.

(** [CoreSites.save(self, **kwargs)]; [new_entry] is the keyword argument
    of that name, if given. *)
Definition save_site (new_entry : option bool) (now : Z) (self : site_dates)
  : site_dates :=
  if default true new_entry
  then {| created := Some now; updated := updated self |}
  else {| created := created self; updated := Some now |}.

End Timestamps.

(** ** The context of the message of a password reset *)

Module ResetMessages.
Import Core.

Section ResetMessages.

Variable resetpass_confirm_url : string.
Variable urlsafe_uid : nat → string.
Variable make_token : CoreUser → string.

(** The context that [save] renders the templates with for a user. *)
Definition reset_context (user : CoreUser) : gmap string ctx_value :=
  <["password_reset_link" :=
      CtxStr (resetpass_confirm_url +:+ urlsafe_uid (pk user) +:+ "/"
                +:+ make_token user +:+ "/")]>
    (<["user" := CtxUser user]> ∅).

End ResetMessages.

End ResetMessages.

(** ** More of the sample store *)

Module SampleMore.
Import Core Token.

Definition uid_to_pk (uid : string) : option nat :=
  if String.eqb uid "Mw" then Some 3%nat
  else if String.eqb uid "OQ" then Some 9%nat
  else None.

Definition check_token (user : CoreUser) (token : string) : bool :=
  String.eqb token (Sample.make_token user).

Definition validate_password (password : option string) (user : CoreUser)
  : list string :=
  match password with
  | Some p => if (String.length p <? 8)%nat
              then ["This password is too short."] else []
  | None => ["This field is required."]
  end.

Definition reset_attrs : gmap string string :=
  {[ "uid" := "Mw"; "token" := "reset-ann";
     "new_password1" := "correct horse"; "new_password2" := "correct horse" ]}.

Definition event_data : CoreUserViewSetMore.invite_event_data :=
  {| CoreUserViewSetMore.room_uuid := Some "room-1";
     CoreUserViewSetMore.event_uuid := Some "event-1";
     CoreUserViewSetMore.emails := Some ["ann@example.com"; "eve@example.com"];
     CoreUserViewSetMore.event_name := Some "Launch";
     CoreUserViewSetMore.organization_name := Some "Globex" |}.

Definition create_invitation_token_event
    (address organization room event : string) : string :=
  ("event." +:+ address)%string.

(** A second organization of the name of the first. *)
Definition world_with_two_acmes : World :=
  with_organizations
    [Sample.acme;
     {| org_pk := 6; organization_uuid := "77aa-acme"; org_name := "Acme" |}]
    (with_next_pk 7 Sample.world).

(** The invitation of Eve, who is not registered, to Acme. *)
Definition invitation_of_eve : gmap string json :=
  {[ "email" := JString "eve@example.com"; "org_uuid" := JString "6f1c-acme" ]}.

Definition jwt_decode (token : string) : jwt_outcome :=
  if String.eqb token "invite.eve" then Decoded invitation_of_eve
  else Sample.jwt_decode token.

(** Acme has a reset template without text; Ann is its only user. *)
Definition acme_template : EmailTemplate :=
  {| tpl_organization := 1; tpl_type := 1; subject := "Acme password";
     template := Some EmptyString; template_html := None |}.

Definition world_with_template : World :=
  {| organizations := [Sample.acme]; coregroups := [Sample.acme_admins];
     coreusers := [Sample.ann]; coreuser_core_groups := [(3%nat, 2%nat)];
     emailtemplates := [acme_template]; next_pk := 6; trace := [] |}.

End SampleMore.

(** * Properties *)

(** ** Permission codes *)

Section PermissionCode.
Import PermissionsField.

Lemma keys_set :
  list_to_set _keys = ({["create"; "read"; "update"; "delete"]} : gset string).
Proof.
  apply set_eq. intros k.
  rewrite elem_of_list_to_set, !elem_of_union, !elem_of_singleton.
  rewrite list_elem_of_In. simpl. intuition.
Qed.

Lemma in_keys k :
  k ∈ _keys ↔ k = "create" ∨ k = "read" ∨ k = "update" ∨ k = "delete".
Proof. rewrite list_elem_of_In. simpl. intuition. Qed.

Lemma dom_permissions_dict c r u d :
  dom (permissions_dict c r u d) = list_to_set _keys.
Proof.
  unfold permissions_dict. rewrite !dom_insert_L, dom_empty_L. reflexivity.
Qed.

Lemma lookup_permissions_dict c r u d :
  permissions_dict c r u d !! "create" = Some c
  ∧ permissions_dict c r u d !! "read" = Some r
  ∧ permissions_dict c r u d !! "update" = Some u
  ∧ permissions_dict c r u d !! "delete" = Some d.
Proof.
  unfold permissions_dict.
  split_and!; repeat (rewrite lookup_insert_ne by done); apply lookup_insert_eq.
Qed.

(** The dictionary built from the four pairs in the order of [_keys]. *)
Lemma dict_items c r u d :
  dict [("create", c); ("read", r); ("update", u); ("delete", d)]
  = permissions_dict c r u d.
Proof.
  unfold dict, permissions_dict. simpl.
  rewrite (insert_insert_ne _ "delete" "update") by done.
  rewrite (insert_insert_ne _ "delete" "read") by done.
  rewrite (insert_insert_ne _ "delete" "create") by done.
  rewrite (insert_insert_ne _ "update" "read") by done.
  rewrite (insert_insert_ne _ "update" "create") by done.
  rewrite (insert_insert_ne _ "read" "create") by done.
  reflexivity.
Qed.

Lemma to_internal_value_dict c r u d :
  to_internal_value (permissions_dict c r u d) = Ok (mask_of c r u d).
Proof.
  unfold to_internal_value.
  rewrite bool_decide_true by apply dom_permissions_dict.
  destruct (lookup_permissions_dict c r u d) as (Hc & Hr & Hu & Hd).
  cbn [negb for_each _keys]. unfold getitem. rewrite Hc, Hr, Hu, Hd.
  destruct c, r, u, d; reflexivity.
Qed.

Lemma to_representation_mask c r u d :
  to_representation (mask_of c r u d) = Ok (permissions_dict c r u d).
Proof.
  rewrite <- dict_items. destruct c, r, u, d; reflexivity.
Qed.

Lemma mask_of_range c r u d : 0 ≤ mask_of c r u d ≤ 15.
Proof. destruct c, r, u, d; vm_compute; split; discriminate. Qed.

Lemma mask_of_surjective v :
  0 ≤ v ≤ 15 → ∃ c r u d, v = mask_of c r u d.
Proof.
  intros Hv.
  exists (Z.testbit v 3), (Z.testbit v 2), (Z.testbit v 1), (Z.testbit v 0).
  assert (Hcases : v = 0 ∨ v = 1 ∨ v = 2 ∨ v = 3 ∨ v = 4 ∨ v = 5 ∨ v = 6
                   ∨ v = 7 ∨ v = 8 ∨ v = 9 ∨ v = 10 ∨ v = 11 ∨ v = 12
                   ∨ v = 13 ∨ v = 14 ∨ v = 15) by lia.
  destruct_or!; subst v; reflexivity.
Qed.

(** A dictionary with exactly the four keys is the dictionary of a quadruple. *)
Lemma dict_of_key_set (data : gmap string bool) :
  dom data = list_to_set _keys →
  ∃ c r u d, data = permissions_dict c r u d.
Proof.
  intros Hdom.
  assert (Hin : ∀ k, k ∈ _keys → is_Some (data !! k)).
  { intros k Hk. apply elem_of_dom. rewrite Hdom. by apply elem_of_list_to_set. }
  destruct (Hin "create") as [c Hc]; [apply in_keys; auto|].
  destruct (Hin "read") as [r Hr]; [apply in_keys; auto|].
  destruct (Hin "update") as [u Hu]; [apply in_keys; auto|].
  destruct (Hin "delete") as [d Hd]; [apply in_keys; auto|].
  exists c, r, u, d. apply map_eq. intros k.
  unfold permissions_dict.
  destruct (decide (k = "create")) as [->|?]; [by rewrite lookup_insert_eq|].
  rewrite lookup_insert_ne by done.
  destruct (decide (k = "read")) as [->|?]; [by rewrite lookup_insert_eq|].
  rewrite lookup_insert_ne by done.
  destruct (decide (k = "update")) as [->|?]; [by rewrite lookup_insert_eq|].
  rewrite lookup_insert_ne by done.
  destruct (decide (k = "delete")) as [->|?]; [by rewrite lookup_insert_eq|].
  rewrite lookup_insert_ne by done.
  rewrite lookup_empty. apply not_elem_of_dom. rewrite Hdom.
  rewrite elem_of_list_to_set, in_keys. intuition.
Qed.

(** C1: encoding and decoding are mutually inverse. For each of the 16
    quadruples of flags, encoding its JSON object yields an integer whose
    decoding is that object again; for each integer from 0 to 15, decoding
    succeeds and encoding the decoded object yields the integer. *)
Theorem encode_decode_inverse :
  (∀ c r u d : bool, ∃ v,
      to_internal_value (permissions_dict c r u d) = Ok v
      ∧ to_representation v = Ok (permissions_dict c r u d))
  ∧ (∀ v : Z, 0 ≤ v ≤ 15 → ∃ data,
      to_representation v = Ok data ∧ to_internal_value data = Ok v).
Proof.
  split.
  - intros c r u d. exists (mask_of c r u d).
    split; [apply to_internal_value_dict | apply to_representation_mask].
  - intros v Hv. destruct (mask_of_surjective v Hv) as (c & r & u & d & ->).
    exists (permissions_dict c r u d).
    split; [apply to_representation_mask | apply to_internal_value_dict].
Qed.

(** The inverse law at 9, the example in the docstring of the field. *)
Lemma encode_decode_inverse_witness :
  ∃ data, to_representation 9 = Ok data ∧ to_internal_value data = Ok 9.
Proof. apply (proj2 encode_decode_inverse 9). lia. Defined.

(** C8: encoding fails with the validation error for every dictionary
    whose key set is not exactly create, read, update, delete, and yields
    an integer between 0 and 15 for every dictionary with that key set. *)
Theorem encode_key_set (data : gmap string bool) :
  (dom data ≠ {["create"; "read"; "update"; "delete"]} →
     to_internal_value data
     = Raise (ValidationError "Permissions field: incorrect keys format"))
  ∧ (dom data = {["create"; "read"; "update"; "delete"]} →
     ∃ v, to_internal_value data = Ok v ∧ 0 ≤ v ≤ 15).
Proof.
  rewrite <- keys_set. split; intros Hdom.
  - unfold to_internal_value. by rewrite bool_decide_false.
  - destruct (dict_of_key_set data Hdom) as (c & r & u & d & ->).
    exists (mask_of c r u d).
    split; [apply to_internal_value_dict | apply mask_of_range].
Qed.

(** A dictionary with two keys is rejected; the dictionary of 1001 is
    encoded. *)
Lemma encode_key_set_witness :
  to_internal_value {["create" := true; "read" := false]}
  = Raise (ValidationError "Permissions field: incorrect keys format")
  ∧ ∃ v, to_internal_value (permissions_dict true false false true) = Ok v
         ∧ 0 ≤ v ≤ 15.
Proof.
  split.
  - apply (proj1 (encode_key_set {["create" := true; "read" := false]})).
    apply (bool_decide_eq_false_1 _). vm_compute. reflexivity.
  - apply (proj2 (encode_key_set (permissions_dict true false false true))).
    apply (bool_decide_eq_true_1 _). vm_compute. reflexivity.
Defined.

End PermissionCode.

Section Clamping.
Import PermissionsField.

(** Every negative value makes [to_representation] raise: the sign is the
    first character that [int] is applied to. *)
Lemma to_representation_negative (v : Z) :
  v < 0 → to_representation v = Raise ValueError.
Proof.
  intros Hv. destruct v as [|p|p]; try lia.
  unfold to_representation. reflexivity.
Qed.

(** C7, as stated, fails below the range: -1 is outside [0,15], and
    decoding it raises [ValueError] where decoding 15 yields the object
    with the four flags set; the binary display of a group is "-1"
    rather than "1111". *)
Lemma decode_below_range_not_clamped :
  to_representation (-1) ≠ to_representation 15
  ∧ Workflow.display_permissions
      {| Workflow.name := "Admins"; Workflow.workflowlevel1 := None;
         Workflow.workflowlevel2 := None; Workflow.permissions := -1 |}
    ≠ Workflow.display_permissions
      {| Workflow.name := "Admins"; Workflow.workflowlevel1 := None;
         Workflow.workflowlevel2 := None; Workflow.permissions := 15 |}.
Proof.
  split.
  - rewrite (to_representation_negative (-1)) by lia.
    change 15 with (mask_of true true true true).
    rewrite to_representation_mask. discriminate.
  - vm_compute. discriminate.
Qed.

(** C7, amended: for every integer above 15, decoding yields what decoding
    15 yields, both in the serializer field and in the binary display of a
    group. *)
Theorem decode_clamps_above (v : Z) :
  15 < v →
  to_representation v = to_representation 15
  ∧ ∀ n w1 w2,
      Workflow.display_permissions
        {| Workflow.name := n; Workflow.workflowlevel1 := w1;
           Workflow.workflowlevel2 := w2; Workflow.permissions := v |}
      = Workflow.display_permissions
        {| Workflow.name := n; Workflow.workflowlevel1 := w1;
           Workflow.workflowlevel2 := w2; Workflow.permissions := 15 |}.
Proof.
  intros Hv.
  assert (Hlt : (v <? 16) = false) by (apply Z.ltb_ge; lia).
  split.
  - unfold to_representation. by rewrite Hlt.
  - intros n w1 w2. unfold Workflow.display_permissions. simpl. by rewrite Hlt.
Qed.

(** 4096 decodes as 15 does. *)
Lemma decode_clamps_above_witness :
  to_representation 4096 = to_representation 15.
Proof. apply (proj1 (decode_clamps_above 4096 ltac:(lia))). Defined.

End Clamping.

(** ** Organization admins *)

Section OrgAdmin.
Import Workflow.

Lemma role_in_names self db :
  ROLE_ORGANIZATION_ADMIN ∈ (groups_values_list_name self db).1
  ↔ in_org_admin_role self (user_groups db).
Proof.
  unfold groups_values_list_name, in_org_admin_role. simpl.
  rewrite list_elem_of_fmap. split.
  - intros ([u g] & Hname & Hrow). apply list_elem_of_filter in Hrow as [Hpk Hrow].
    simpl in *. subst u. eauto.
  - intros (g & Hrow & Hname). exists (pk self, g). split; [done|].
    apply list_elem_of_filter. done.
Qed.

(** Once the attribute is set, no call queries the database or changes
    the answer. *)
Lemma is_org_admin_calls_cached self v n tables :
  _is_org_admin self = Some v →
  is_org_admin_calls self n tables = (replicate (length tables) v, self, n).
Proof.
  intros Hc. revert n. induction tables as [|t tables IH]; intros n; [done|].
  simpl. unfold is_org_admin. rewrite Hc. simpl. by rewrite IH.
Qed.

(** C5, as stated, fails in both directions: a user whose only group is a
    global group with the full mask 15 is not an organization admin for the
    code, and a user with no permission group at all is one as soon as the
    user is a member of a group named "OrgAdmin". *)
Lemma org_admin_is_not_decided_by_mask :
  let holder := {| pk := 1; username := "ann"; organization := Some 7%nat;
                   core_groups := [{| name := "Admins"; workflowlevel1 := None;
                                      workflowlevel2 := None; permissions := 15 |}];
                   _is_org_admin := None |} in
  let member := {| pk := 2; username := "bob"; organization := Some 7%nat;
                   core_groups := []; _is_org_admin := None |} in
  let db := {| user_groups := [(2%nat, {| group_name := "OrgAdmin" |})];
               queries := 0 |} in
  (full_mask_at_org_or_global_scope holder = true
   ∧ (is_org_admin holder db).1.1 = false)
  ∧ (full_mask_at_org_or_global_scope member = false
     ∧ (is_org_admin member db).1.1 = true).
Proof. vm_compute. auto. Qed.

(** C5, amended: the organization-admin check returns true exactly when
    the user is a member of a group named "OrgAdmin"; over any number of
    calls on one user object the membership is queried once, at the first
    call, and every call returns that first answer, whatever happens to
    the memberships in between. *)
Theorem is_org_admin_by_role_and_cached
    (self : CoreUser) (n : nat) (table : list (nat * Group))
    (later : list (list (nat * Group))) :
  _is_org_admin self = None →
  ∃ answer self',
    is_org_admin_calls self n (table :: later)
      = (replicate (S (length later)) answer, self', S n)
    ∧ (answer = true ↔ in_org_admin_role self table).
Proof.
  intros Hfresh. simpl. unfold is_org_admin at 1. rewrite Hfresh.
  set (db := {| user_groups := table; queries := n |}).
  destruct (groups_values_list_name self db) as [names db'] eqn:Hq.
  set (answer := bool_decide (ROLE_ORGANIZATION_ADMIN ∈ names)).
  eexists answer, _.
  assert (Hdb' : queries db' = S n).
  { unfold groups_values_list_name in Hq. by inversion Hq. }
  rewrite (is_org_admin_calls_cached _ answer) by done.
  rewrite Hdb'. split; [done|].
  unfold answer. rewrite bool_decide_eq_true.
  replace names with (groups_values_list_name self db).1 by by rewrite Hq.
  apply role_in_names.
Qed.

(** Bob is in the role at the first call and removed from it afterwards:
    three calls, one query, the first answer three times. *)
Lemma is_org_admin_by_role_and_cached_witness :
  ∃ answer self',
    is_org_admin_calls
      {| pk := 2; username := "bob"; organization := None;
         core_groups := []; _is_org_admin := None |}
      0 [[(2%nat, {| group_name := "OrgAdmin" |})]; []; []]
    = (replicate 3 answer, self', 1%nat)
    ∧ (answer = true
       ↔ in_org_admin_role
           {| pk := 2; username := "bob"; organization := None;
              core_groups := []; _is_org_admin := None |}
           [(2%nat, {| group_name := "OrgAdmin" |})]).
Proof.
  apply (is_org_admin_by_role_and_cached
           {| pk := 2; username := "bob"; organization := None;
              core_groups := []; _is_org_admin := None |}
           0 [(2%nat, {| group_name := "OrgAdmin" |})] [[]; []]).
  reflexivity.
Defined.

End OrgAdmin.

(** ** Invitation tokens *)

Section InvitationTokens.
Import Core Token CoreUserViewSet.

Variable jwt_decode : string → jwt_outcome.

Lemma exists_user_with_email (w : World) (u : CoreUser) (address : string) :
  u ∈ coreusers w → email u = address →
  coreuser_with_email_exists (JString address) w = true.
Proof.
  intros Hu He. unfold coreuser_with_email_exists.
  apply bool_decide_eq_true. apply Exists_exists. by exists u.
Qed.

(** C2, amended: for an invitation token that decodes and whose claimed
    email belongs to an existing user, the check of the token answers with
    the dedicated error "Token has been used.", which no token that fails
    to decode receives; redeeming the token at signup fails with the
    validation error "Token is not valid.". *)
Theorem used_invitation_token
    (w : World) (token address : string) (decoded : gmap string json)
    (u : CoreUser) :
  jwt_decode token = Decoded decoded →
  decoded !! "email" = Some (JString address) →
  u ∈ coreusers w → email u = address →
  (∀ query_params, query_params !! "token" = Some token →
     invite_check jwt_decode query_params w
     = Ok (Response (Detail "Token has been used.") HTTP_401_UNAUTHORIZED))
  ∧ (∀ query_params token' e,
       query_params !! "token" = Some token' →
       jwt_decode token' = JwtRaises e →
       invite_check jwt_decode query_params w
       ≠ Ok (Response (Detail "Token has been used.") HTTP_401_UNAUTHORIZED))
  ∧ (∀ initial_data,
       CoreUserSerializer.validate_invitation_token jwt_decode w initial_data token
       = Raise (ValidationError "Token is not valid.")).
Proof.
  intros Hdec Hclaim Hu He.
  pose proof (exists_user_with_email w u address Hu He) as Hex.
  split_and!.
  - intros qp Hqp. unfold invite_check. rewrite Hqp, Hdec.
    unfold getitem. rewrite Hclaim. simpl. by rewrite Hex.
  - intros qp token' e Hqp Hraise. unfold invite_check. rewrite Hqp, Hraise.
    destruct (is_DecodeError e); [discriminate|].
    destruct (is_ExpiredSignatureError e); discriminate.
  - intros initial_data. unfold CoreUserSerializer.validate_invitation_token.
    rewrite Hdec. unfold getitem. rewrite Hclaim. simpl. by rewrite Hex.
Qed.

(** C3, amended: for every input token, an expired token is rejected with
    the dedicated error "Token is expired.", a token whose decoding fails
    with a decode error (a failed signature verification is one) is
    rejected with the dedicated error "Token is not valid.", and every
    rejection that a check answers with is exactly one of the three token
    errors: expired, invalid, already used. *)
Theorem token_rejections
    (w : World) (query_params : gmap string string) (token : string) :
  query_params !! "token" = Some token →
  (jwt_decode token = JwtRaises ExpiredSignatureError →
     invite_check jwt_decode query_params w
     = Ok (Response (Detail "Token is expired.") HTTP_401_UNAUTHORIZED)
     ∧ invite_event_check jwt_decode query_params
       = Ok (Response (Detail "Token is expired.") HTTP_401_UNAUTHORIZED))
  ∧ (∀ e, jwt_decode token = JwtRaises e → is_DecodeError e = true →
       invite_check jwt_decode query_params w
       = Ok (Response (Detail "Token is not valid.") HTTP_401_UNAUTHORIZED)
       ∧ invite_event_check jwt_decode query_params
         = Ok (Response (Detail "Token is not valid.") HTTP_401_UNAUTHORIZED))
  ∧ (∀ data status,
       invite_check jwt_decode query_params w = Ok (Response data status) →
       status ≠ HTTP_200_OK →
       status = HTTP_401_UNAUTHORIZED
       ∧ (data = Detail "Token is expired."
          ∨ data = Detail "Token is not valid."
          ∨ data = Detail "Token has been used."))
  ∧ (∀ data status,
       invite_event_check jwt_decode query_params = Ok (Response data status) →
       status ≠ HTTP_200_OK →
       status = HTTP_401_UNAUTHORIZED
       ∧ (data = Detail "Token is expired."
          ∨ data = Detail "Token is not valid.")).
Proof.
  intros Hqp. unfold invite_check, invite_event_check. rewrite Hqp.
  split_and!.
  - intros ->. done.
  - intros e -> ->. done.
  - intros data status.
    destruct (jwt_decode token) as [decoded|e].
    + unfold getitem.
      destruct (decoded !! "email") as [claimed|]; simpl; [|discriminate].
      destruct (coreuser_with_email_exists claimed w).
      { intros [= <- <-] _. auto. }
      destruct (decoded !! "org_uuid") as [org_uuid|]; simpl; [|discriminate].
      destruct (truthy org_uuid); simpl.
      * destruct (filter _ _) as [|o [|o' rows]]; simpl; try discriminate.
        intros [= <- <-] Hs. done.
      * intros [= <- <-] Hs. done.
    + destruct (is_DecodeError e); [intros [= <- <-] _; auto|].
      destruct (is_ExpiredSignatureError e); [intros [= <- <-] _; auto|].
      discriminate.
  - intros data status.
    destruct (jwt_decode token) as [decoded|e].
    + unfold getitem.
      destruct (decoded !! "email"); simpl; [|discriminate].
      destruct (decoded !! "organization"); simpl; [|discriminate].
      destruct (decoded !! "room_uuid"); simpl; [|discriminate].
      destruct (decoded !! "event_uuid"); simpl; [|discriminate].
      intros [= <- <-] Hs. done.
    + destruct (is_DecodeError e); [intros [= <- <-] _; auto|].
      destruct (is_ExpiredSignatureError e); [intros [= <- <-] _; auto|].
      discriminate.
Qed.

End InvitationTokens.

(** ** Running code in [M] *)

Section RunM.
Import Core.

Lemma with_trace_id (w : World) : with_trace (trace w) w = w.
Proof. by destruct w. Qed.

Lemma with_coreuser_core_groups_id (w : World) :
  with_coreuser_core_groups (coreuser_core_groups w) w = w.
Proof. by destruct w. Qed.

Lemma run_bind {A B} (m : M A) (k : A → M B) (w : World) :
  (m ≫= k) w
  = match m w with
    | (Ok a, w') => k a w'
    | (Raise e, w') => (Raise e, w')
    end.
Proof. reflexivity. Qed.

Lemma run_emit (e : event) (w : World) :
  emit e w = (Ok tt, with_trace (trace w ++ [e]) w).
Proof. reflexivity. Qed.

End RunM.

(** ** Inviting users *)

Section Invite.
Import Core Token CoreUserViewSet.

Variable valid_email : string → bool.
Variable mail_backend : string → string → string → option string → nat.
Variable render_to_string : string → gmap string ctx_value → string.
Variable create_invitation_token : string → option Organization → string.
Variable registration_url : string.
Variable build_absolute_uri : string → string.
Variable org_admin_name : CoreUser → string.

Local Abbreviation invite :=
  (invite valid_email mail_backend render_to_string create_invitation_token
          registration_url build_absolute_uri org_admin_name).

Local Abbreviation invite_address :=
  (invite_address mail_backend render_to_string create_invitation_token
                  registration_url build_absolute_uri org_admin_name).
Local Abbreviation perform_invite_loop :=
  (perform_invite_loop mail_backend render_to_string create_invitation_token
                       registration_url build_absolute_uri org_admin_name).

(** Inviting never raises once the request is validated. *)
Lemma invite_address_returns user organization registered links address w :
  ∃ links' w',
    invite_address user organization registered links address w = (Ok links', w').
Proof.
  unfold CoreUserViewSet.invite_address. case_bool_decide; [|by do 2 eexists].
  rewrite run_bind, run_emit. unfold send_email, send_email_body.
  rewrite !run_bind, run_emit. by do 2 eexists.
Qed.

Lemma perform_invite_loop_returns user organization registered addresses :
  ∀ links w, ∃ links' w',
    perform_invite_loop user organization registered links addresses w
    = (Ok links', w').
Proof.
  induction addresses as [|address addresses IH]; intros links w.
  - by do 2 eexists.
  - destruct (invite_address_returns user organization registered links address w)
      as (links1 & w1 & Hrun).
    simpl. rewrite run_bind, Hrun. apply IH.
Qed.

(** C9: the invite operation accepts only a list of 1 to 10 addresses.
    A request whose list is empty or has more than 10 entries fails with a
    validation error and leaves the world as it was: no invitation token
    is minted and no notification is sent. A request that is answered
    carried a list of between 1 and 10 addresses, and a request with
    between 1 and 10 valid addresses is answered. *)
Theorem invite_length_bounds (user : CoreUser) (w : World) :
  (∀ emails : list string,
     (length emails = 0 ∨ 10 < length emails)%nat →
     ∃ detail, invite user (Some emails) w = (Raise (ValidationError detail), w))
  ∧ (∀ data answer w',
       invite user data w = (Ok answer, w') →
       ∃ emails, data = Some emails ∧ (1 ≤ length emails ≤ 10)%nat)
  ∧ (∀ emails : list string,
       forallb valid_email emails = true →
       (1 ≤ length emails ≤ 10)%nat →
       ∃ links w',
         invite user (Some emails) w
         = (Ok (Response (Invitations "The invitations were sent successfully."
                                      links) HTTP_200_OK), w')).
Proof.
  split_and!.
  - intros emails Hlen. unfold CoreUserViewSet.invite.
    unfold CoreUserInvitationSerializer.is_valid,
      CoreUserInvitationSerializer.max_length,
      CoreUserInvitationSerializer.min_length.
    destruct (forallb valid_email emails); simpl; [|by eexists].
    destruct (Nat.ltb_spec 10 (length emails)); [by eexists|].
    destruct (Nat.ltb_spec (length emails) 1); [by eexists|lia].
  - intros data answer w'. unfold CoreUserViewSet.invite.
    unfold CoreUserInvitationSerializer.is_valid,
      CoreUserInvitationSerializer.max_length,
      CoreUserInvitationSerializer.min_length.
    destruct data as [emails|]; [|discriminate].
    destruct (forallb valid_email emails); simpl; [|discriminate].
    destruct (Nat.ltb_spec 10 (length emails)); [discriminate|].
    destruct (Nat.ltb_spec (length emails) 1); [discriminate|].
    intros _. exists emails. split; [done|lia].
  - intros emails Hvalid Hlen. unfold CoreUserViewSet.invite.
    unfold CoreUserInvitationSerializer.is_valid,
      CoreUserInvitationSerializer.max_length,
      CoreUserInvitationSerializer.min_length.
    rewrite Hvalid. simpl.
    destruct (Nat.ltb_spec 10 (length emails)); [lia|].
    destruct (Nat.ltb_spec (length emails) 1); [lia|].
    rewrite run_bind. unfold perform_invite.
    rewrite run_bind. unfold gets at 1. rewrite run_bind. unfold gets at 1.
    match goal with |- context [CoreUserViewSet.perform_invite_loop _ _ _ _ _ _ ?u ?o ?r ?l ?a ?w0] =>
      destruct (perform_invite_loop_returns u o r a l w0) as (links & w' & ->) end.
    by exists links, w'.
Qed.

End Invite.

(** ** Password reset *)

Section ResetPassword.
Import Core CoreUserResetPasswordSerializer.

Variable mail_backend : string → string → string → option string → nat.
Variable render_to_string : string → gmap string ctx_value → string.
Variable render_source : string → gmap string ctx_value → string.
Variable resetpass_confirm_url : string.
Variable DEFAULT_ORG : string.
Variable urlsafe_uid : nat → string.
Variable make_token : CoreUser → string.

Local Abbreviation save_user :=
  (save_user mail_backend render_to_string render_source
             resetpass_confirm_url DEFAULT_ORG urlsafe_uid make_token).
Local Abbreviation save_loop :=
  (save_loop mail_backend render_to_string render_source
             resetpass_confirm_url DEFAULT_ORG urlsafe_uid make_token).
Local Abbreviation save :=
  (save mail_backend render_to_string render_source
        resetpass_confirm_url DEFAULT_ORG urlsafe_uid make_token).

(** One turn of the loop mints one token, sends one message and adds what
    the backend reports to the count. *)
Lemma save_user_run (address : string) (count : nat) (user : CoreUser) (w : World) :
  ∃ m : message,
    save_user address count user w
    = (Ok (count + dispatched mail_backend address m)%nat,
       with_trace (trace w ++ reset_events make_token address (user, m)) w).
Proof.
  unfold CoreUserResetPasswordSerializer.save_user.
  rewrite run_bind, run_emit.
  set (w1 := with_trace _ w).
  assert (Hw1 : ∀ e, with_trace (trace w1 ++ [e]) w1
                     = with_trace (trace w ++ [ResetTokenMinted (pk user) (make_token user); e]) w).
  { intros e. unfold w1, with_trace. simpl. by rewrite <- app_assoc. }
  rewrite run_bind. unfold gets at 1.
  destruct (template_of_organization (organization user) TEMPLATE_RESET_PASSWORD w1)
    as [tpl|].
  - rewrite run_bind. unfold mret at 1, M_ret at 1.
    destruct (truthy_str (template tpl)).
    + eexists (_, _, _). unfold send_email_body.
      rewrite !run_bind, run_emit, Hw1. reflexivity.
    + eexists (_, _, _). unfold send_email, send_email_body.
      rewrite !run_bind, run_emit, Hw1. reflexivity.
  - rewrite run_bind. unfold gets at 1.
    destruct (template_of_organization_name DEFAULT_ORG TEMPLATE_RESET_PASSWORD w1)
      as [tpl|].
    + destruct (truthy_str (template tpl)).
      * eexists (_, _, _). unfold send_email_body.
        rewrite !run_bind, run_emit, Hw1. reflexivity.
      * eexists (_, _, _). unfold send_email, send_email_body.
        rewrite !run_bind, run_emit, Hw1. reflexivity.
    + eexists (_, _, _). unfold send_email, send_email_body.
      rewrite !run_bind, run_emit, Hw1. reflexivity.
Qed.

Lemma sum_list_ones {A} (f : A → nat) (l : list A) :
  (∀ a, f a = 1%nat) → sum_list (f <$> l) = length l.
Proof.
  intros Hone. induction l as [|a l IH]; [done|].
  rewrite fmap_cons. cbn [sum_list sum_list_with id length].
  by rewrite Hone, IH.
Qed.

Lemma save_loop_run (address : string) (users : list CoreUser) :
  ∀ (count : nat) (w : World),
  ∃ messages : list message,
    length messages = length users
    ∧ save_loop address count users w
      = (Ok (count + sum_list (dispatched mail_backend address <$> messages))%nat,
         with_trace
           (trace w ++ zip users messages ≫= reset_events make_token address) w).
Proof.
  induction users as [|user users IH]; intros count w.
  - exists []. split; [done|]. simpl. unfold mret, M_ret.
    rewrite app_nil_r, with_trace_id. do 2 f_equal. lia.
  - destruct (save_user_run address count user w) as [m Hm].
    simpl. rewrite run_bind, Hm.
    destruct (IH (count + dispatched mail_backend address m)%nat
                 (with_trace (trace w ++ reset_events make_token address (user, m)) w))
      as (messages & Hlen & Hrun).
    exists (m :: messages). split; [simpl; by rewrite Hlen|].
    rewrite Hrun. f_equal.
    + f_equal. rewrite fmap_cons. cbn [sum_list sum_list_with id]. lia.
    + unfold with_trace. simpl. by rewrite <- app_assoc.
Qed.

(** C6: for every address, the password-reset request mints one reset
    token and sends one notification for each active user with that
    address, in turn, and returns the sum of what the notifier reports as
    dispatched: the number of those users when every notification is
    dispatched (2 for two of them), and 0, without error and without any
    effect, when there is none. *)
Theorem reset_password_fan_out (address : string) (w : World) :
  let users := active_users_with_email address w in
  ∃ messages : list message,
    length messages = length users
    ∧ save address w
      = (Ok (sum_list (dispatched mail_backend address <$> messages)),
         with_trace
           (trace w ++ zip users messages ≫= reset_events make_token address) w)
    ∧ ((∀ m, dispatched mail_backend address m = 1%nat) →
       save address w
       = (Ok (length users),
          with_trace
            (trace w ++ zip users messages ≫= reset_events make_token address) w))
    ∧ (users = [] → save address w = (Ok 0%nat, w)).
Proof.
  intros users.
  destruct (save_loop_run address users 0%nat w) as (messages & Hlen & Hrun).
  rewrite Nat.add_0_l in Hrun.
  assert (Hsave : save address w = save_loop address 0%nat users w) by reflexivity.
  exists messages. rewrite Hsave, Hrun. split_and!; [done|done| |].
  - intros Hone. by rewrite (sum_list_ones _ _ Hone), Hlen.
  - intros Hnone. rewrite Hnone in *. destruct messages; [|done].
    simpl. by rewrite app_nil_r, with_trace_id.
Qed.

End ResetPassword.

(** ** Signup *)

Section Signup.
Import Core CoreUserWritableSerializer.

Variable uuid4 : nat → string.

Lemma core_groups_add_run (u : CoreUser) (group : nat) (w : World) :
  ∃ table,
    core_groups_add u group w = (Ok tt, with_coreuser_core_groups table w)
    ∧ ∀ row, row ∈ table ↔ row ∈ coreuser_core_groups w ∨ row = (pk u, group).
Proof.
  unfold core_groups_add, modify. case_bool_decide as Hin.
  - exists (coreuser_core_groups w). rewrite with_coreuser_core_groups_id.
    split; [done|]. intros row. split; [auto|]. by intros [?| ->].
  - eexists. split; [done|]. intros row.
    rewrite elem_of_app, list_elem_of_singleton. done.
Qed.

Lemma for_core_groups_add_run (u : CoreUser) (groups : list nat) :
  ∀ w : World,
  ∃ table,
    for_ groups (λ group, core_groups_add u group) w
    = (Ok tt, with_coreuser_core_groups table w)
    ∧ ∀ row, row ∈ table
             ↔ row ∈ coreuser_core_groups w
               ∨ ∃ group, group ∈ groups ∧ row = (pk u, group).
Proof.
  induction groups as [|group groups IH]; intros w.
  - exists (coreuser_core_groups w). rewrite with_coreuser_core_groups_id.
    split; [done|]. intros row. split; [auto|].
    intros [?|(g & Hg & _)]; [done|]. by apply elem_of_nil in Hg.
  - destruct (core_groups_add_run u group w) as (t1 & Hrun1 & Ht1).
    destruct (IH (with_coreuser_core_groups t1 w)) as (t2 & Hrun2 & Ht2).
    exists t2. split.
    + simpl. rewrite run_bind, Hrun1, Hrun2. done.
    + intros row. rewrite Ht2. simpl. rewrite Ht1. split.
      * intros [[?| ->]|(g & Hg & ->)]; [by left| |].
        -- right. exists group. split; [left|done].
        -- right. exists g. split; [by right|done].
      * intros [?|(g & Hg & ->)]; [by left; left|].
        apply elem_of_cons in Hg as [->|Hg]; [by left; right|].
        right. by exists g.
Qed.

(** The new user as [create] builds it. *)
Local Abbreviation new_user d org key :=
  (set_password
     {| pk := key; username := vd_username d; email := vd_email d;
        first_name := vd_first_name d; password := RawPassword (vd_password d);
        is_active := true; organization := Some (org_pk org) |}
     (vd_password d)).

(** [create], step by step: the organization, the user row, the admin
    group of a new organization, the requested groups. *)
Lemma create_run (d : validated_data) (w : World) :
  create uuid4 d w
  = match organization_get_or_create uuid4 (vd_organization_name d) w with
    | (Raise e, w1) => (Raise e, w1)
    | (Ok (org, is_new), w1) =>
        let u := new_user d org (next_pk w1) in
        let w2 :=
          with_coreusers
            (map (λ row, if bool_decide (pk row = pk u) then u else row)
                 (coreusers w1
                  ++ [{| pk := next_pk w1; username := vd_username d;
                         email := vd_email d; first_name := vd_first_name d;
                         password := RawPassword (vd_password d);
                         is_active := true;
                         organization := Some (org_pk org) |}]))
            (with_next_pk (S (next_pk w1)) w1) in
        match (if is_new
               then get_group_org_admin org
                      ≫= λ g, core_groups_add u (grp_pk g)
               else mret tt) w2 with
        | (Raise e, w3) => (Raise e, w3)
        | (Ok _, w3) =>
            match for_ (default [] (vd_core_groups d))
                       (λ group, core_groups_add u group) w3 with
            | (Ok _, w4) => (Ok u, w4)
            | (Raise e, w4) => (Raise e, w4)
            end
        end
    end.
Proof.
  unfold create. rewrite run_bind.
  destruct (organization_get_or_create uuid4 (vd_organization_name d) w)
    as [[[org is_new]|e] w1]; reflexivity.
Qed.

(** The organization and the admin group that signing up with a new
    organization name brings into being. *)
Local Abbreviation new_organization name w :=
  {| org_pk := next_pk w; organization_uuid := uuid4 (next_pk w);
     org_name := name |}.
Local Abbreviation new_admin_group w :=
  {| grp_pk := S (next_pk w); grp_name := "Org Admin"; is_global := false;
     is_org_level := true; permissions := PERMISSIONS_ORG_ADMIN;
     grp_organization := Some (next_pk w) |}.

Lemma filter_none {A} (P : A → Prop) `{!∀ x, Decision (P x)} (l : list A) :
  (∀ x, x ∈ l → ¬ P x) → filter P l = [].
Proof.
  intros Hnone. induction l as [|x l IH]; [done|].
  rewrite filter_cons_False; [|apply Hnone; left].
  apply IH. intros y Hy. apply Hnone. by right.
Qed.

Lemma no_organization_named (name : string) (w : World) :
  (∀ o, o ∈ organizations w → org_name o ≠ name) →
  filter (λ o, org_name o = name) (organizations w) = [].
Proof. apply filter_none. Qed.

Lemma get_or_create_new (name : string) (w : World) :
  filter (λ o, org_name o = name) (organizations w) = [] →
  ∃ w1,
    organization_get_or_create uuid4 name w
    = (Ok (new_organization name w, true), w1)
    ∧ organizations w1 = organizations w ++ [new_organization name w]
    ∧ coregroups w1 = coregroups w ++ [new_admin_group w]
    ∧ coreusers w1 = coreusers w
    ∧ coreuser_core_groups w1 = coreuser_core_groups w
    ∧ next_pk w1 = S (S (next_pk w)).
Proof.
  intros Hnone. unfold organization_get_or_create.
  rewrite run_bind. unfold gets at 1. rewrite Hnone.
  eexists. split; [reflexivity|]. done.
Qed.

Lemma get_or_create_existing (name : string) (w : World) (org : Organization) :
  filter (λ o, org_name o = name) (organizations w) = [org] →
  organization_get_or_create uuid4 name w = (Ok (org, false), w).
Proof.
  intros Hone. unfold organization_get_or_create.
  rewrite run_bind. unfold gets at 1. by rewrite Hone.
Qed.

Lemma get_or_create_coreusers (name : string) (w : World) :
  coreusers (organization_get_or_create uuid4 name w).2 = coreusers w.
Proof.
  unfold organization_get_or_create. rewrite run_bind. unfold gets at 1.
  by destruct (filter _ (organizations w)) as [|o [|o' orgs]].
Qed.

Lemma admin_branch_coreusers (org : Organization) (u : CoreUser)
    (is_new : bool) (w : World) :
  coreusers ((if is_new
              then get_group_org_admin org ≫= λ g, core_groups_add u (grp_pk g)
              else mret tt) w).2
  = coreusers w.
Proof.
  destruct is_new; [|done].
  rewrite run_bind. unfold get_group_org_admin. rewrite run_bind.
  unfold gets at 1.
  destruct (filter _ (coregroups w)) as [|g [|g' groups]]; [done| |done].
  unfold get_one, mret, M_ret. cbn beta iota.
  destruct (core_groups_add_run u (grp_pk g) w) as (table & -> & _).
  done.
Qed.

(** C10: every user that [create] stores is stored with [is_active] set,
    whatever [is_active] the input carries: a row of the user table after
    the operation is a row from before it or is active, and the user that
    the operation returns is in the table and active. *)
Theorem created_user_is_active (d : validated_data) (w : World)
    (r : result CoreUser) (w' : World) :
  create uuid4 d w = (r, w') →
  (∀ u, u ∈ coreusers w' → u ∈ coreusers w ∨ is_active u = true)
  ∧ (∀ u, r = Ok u → u ∈ coreusers w' ∧ is_active u = true).
Proof.
  rewrite create_run.
  pose proof (get_or_create_coreusers (vd_organization_name d) w) as Husers.
  destruct (organization_get_or_create uuid4 (vd_organization_name d) w)
    as [[[org is_new]|e] w1]; simpl in Husers.
  2:{ intros [= <- <-]. rewrite Husers. split; [auto|discriminate]. }
  cbn zeta.
  set (u := new_user d org (next_pk w1)).
  set (w2 := with_coreusers _ _).
  pose proof (admin_branch_coreusers org u is_new w2) as Hbranch.
  assert (Hrows : ∀ row, row ∈ coreusers w2 → row ∈ coreusers w ∨ is_active row = true).
  { intros row. unfold w2. simpl. rewrite list_elem_of_fmap.
    intros (row0 & -> & Hrow0). case_bool_decide; [by right|].
    apply elem_of_app in Hrow0 as [?|Hlast]; [left; by rewrite <- Husers|].
    apply list_elem_of_singleton in Hlast. by subst row0. }
  assert (Hin : u ∈ coreusers w2).
  { unfold w2. simpl. apply list_elem_of_fmap. eexists. split; [|
      apply elem_of_app; right; apply list_elem_of_singleton; reflexivity].
    simpl. by rewrite bool_decide_true. }
  destruct ((if is_new
             then get_group_org_admin org ≫= λ g, core_groups_add u (grp_pk g)
             else mret tt) w2) as [[[]|e] w3]; simpl in Hbranch.
  2:{ intros [= <- <-]. rewrite Hbranch. split; [done|discriminate]. }
  destruct (for_core_groups_add_run u (default [] (vd_core_groups d)) w3)
    as (table & -> & _).
  intros [= <- <-]. simpl. rewrite Hbranch. split; [done|].
  intros ? [= <-]. done.
Qed.

Lemma keys_below_groups (w : World) (g : CoreGroup) :
  keys_below w = true → g ∈ coregroups w →
  grp_organization g ≠ Some (next_pk w).
Proof.
  unfold keys_below. rewrite !andb_true_iff, !forallb_forall.
  intros [[[_ Hgroups] _] _] Hg Horg.
  apply list_elem_of_In, Hgroups in Hg. rewrite Horg in Hg. simpl in Hg.
  apply andb_true_iff in Hg as [_ Hlt]. apply Nat.ltb_lt in Hlt. lia.
Qed.

Lemma keys_below_rows (w : World) (row : nat * nat) :
  keys_below w = true → row ∈ coreuser_core_groups w →
  (row.1 < next_pk w)%nat.
Proof.
  unfold keys_below. rewrite !andb_true_iff, !forallb_forall.
  intros [_ Hrows] Hrow.
  apply list_elem_of_In, Hrows, andb_true_iff in Hrow as [Hlt _].
  by apply Nat.ltb_lt.
Qed.

(** C4, amended: with a name that no organization bears, the user is
    assigned a new organization of that name, a group of that organization
    with the full mask 1111 at organization level is created with it, and
    the groups of the user are that group and the groups the request
    lists. With the name of an existing organization, the user is assigned
    that organization, nothing is created beside the user, and the groups
    of the user are exactly the groups the request lists. *)
Theorem signup_organization_and_groups (d : validated_data) (w : World) :
  keys_below w = true →
  ((∀ o, o ∈ organizations w → org_name o ≠ vd_organization_name d) →
   ∃ u org g w',
     create uuid4 d w = (Ok u, w')
     ∧ organizations w' = organizations w ++ [org]
     ∧ org_name org = vd_organization_name d
     ∧ organization u = Some (org_pk org)
     ∧ u ∈ coreusers w'
     ∧ coregroups w' = coregroups w ++ [g]
     ∧ grp_organization g = Some (org_pk org)
     ∧ is_org_level g = true
     ∧ permissions g = 15
     ∧ ∀ gpk, (pk u, gpk) ∈ coreuser_core_groups w'
              ↔ gpk = grp_pk g ∨ gpk ∈ default [] (vd_core_groups d))
  ∧ (∀ org,
       filter (λ o, org_name o = vd_organization_name d) (organizations w) = [org] →
       ∃ u w',
         create uuid4 d w = (Ok u, w')
         ∧ organizations w' = organizations w
         ∧ coregroups w' = coregroups w
         ∧ organization u = Some (org_pk org)
         ∧ u ∈ coreusers w'
         ∧ ∀ gpk, (pk u, gpk) ∈ coreuser_core_groups w'
                  ↔ gpk ∈ default [] (vd_core_groups d)).
Proof.
  intros Hkeys. split.
  - intros Hnone. apply no_organization_named in Hnone.
    destruct (get_or_create_new _ _ Hnone)
      as (w1 & Hrun & Horgs & Hgroups & Husers & Hrows & Hnext).
    rewrite create_run, Hrun. cbn zeta.
    set (org := new_organization (vd_organization_name d) w).
    set (g := new_admin_group w).
    set (u := new_user d org (next_pk w1)).
    set (w2 := with_coreusers _ _).
    assert (Hfilter :
      filter (λ g', grp_organization g' = Some (org_pk org)
                    ∧ is_org_level g' = true
                    ∧ permissions g' = PERMISSIONS_ORG_ADMIN) (coregroups w2)
      = [g]).
    { unfold w2. simpl. rewrite Hgroups, filter_app.
      rewrite filter_none.
      - rewrite filter_cons_True; done.
      - intros g' Hg' [Horg _].
        by apply (keys_below_groups w g' Hkeys Hg'). }
    rewrite run_bind. unfold get_group_org_admin. rewrite run_bind.
    unfold gets at 1. rewrite Hfilter.
    unfold get_one, mret, M_ret. cbn beta iota.
    destruct (core_groups_add_run u (grp_pk g) w2) as (t1 & -> & Ht1).
    destruct (for_core_groups_add_run u (default [] (vd_core_groups d))
                (with_coreuser_core_groups t1 w2)) as (t2 & -> & Ht2).
    exists u, org, g. eexists. split; [reflexivity|].
    simpl. split_and!; try done.
    + apply list_elem_of_fmap. eexists. split; [|
        apply elem_of_app; right; apply list_elem_of_singleton; reflexivity].
      simpl. by rewrite bool_decide_true.
    + intros gpk. rewrite Ht2. simpl. rewrite Ht1. simpl. rewrite Hrows. split.
      * intros [[Hold|[= ->]]|(g' & Hg' & [= ->])]; [|by left|by right].
        apply (keys_below_rows w _ Hkeys) in Hold. simpl in Hold. lia.
      * intros [->|Hreq]; [by left; right|]. right. by exists gpk.
  - intros org Hone. rewrite create_run, (get_or_create_existing _ _ _ Hone).
    cbn zeta.
    set (u := new_user d org (next_pk w)).
    set (w2 := with_coreusers _ _).
    unfold mret at 1, M_ret at 1.
    destruct (for_core_groups_add_run u (default [] (vd_core_groups d)) w2)
      as (t2 & -> & Ht2).
    exists u. eexists. split; [reflexivity|].
    simpl. split_and!; try done.
    + apply list_elem_of_fmap. eexists. split; [|
        apply elem_of_app; right; apply list_elem_of_singleton; reflexivity].
      simpl. by rewrite bool_decide_true.
    + intros gpk. rewrite Ht2. simpl. split.
      * intros [Hold|(g' & Hg' & [= ->])]; [|done].
        apply (keys_below_rows w _ Hkeys) in Hold. simpl in Hold. lia.
      * intros Hreq. right. by exists gpk.
Qed.

End Signup.

(** ** Concrete runs *)

Section ConcreteRuns.
Import Core Token CoreUserViewSet.

(** C2, as stated, fails for redeeming: at signup, the invitation of Ann,
    who is registered, is rejected with "Token is not valid.", which is
    the very error that a token with a tampered signature gets there. *)
Lemma used_token_redeemed_as_invalid :
  CoreUserSerializer.validate_invitation_token Sample.jwt_decode Sample.world
    {[ "email" := JString "ann@example.com" ]} "invite.ann"
  = Raise (ValidationError "Token is not valid.")
  ∧ CoreUserSerializer.validate_invitation_token Sample.jwt_decode Sample.world
      {[ "email" := JString "ann@example.com" ]} "tampered"
    = Raise (ValidationError "Token is not valid.").
Proof. split; vm_compute; reflexivity. Qed.

(** The invitation of Ann, who is registered, at the check and at signup. *)
Lemma used_invitation_token_witness :
  invite_check Sample.jwt_decode {[ "token" := "invite.ann" ]} Sample.world
  = Ok (Response (Detail "Token has been used.") HTTP_401_UNAUTHORIZED)
  ∧ CoreUserSerializer.validate_invitation_token Sample.jwt_decode Sample.world
      ∅ "invite.ann"
    = Raise (ValidationError "Token is not valid.").
Proof.
  destruct (used_invitation_token Sample.jwt_decode Sample.world
              "invite.ann" "ann@example.com" Sample.invitation_of_ann Sample.ann)
    as (Hcheck & _ & Hredeem).
  - reflexivity.
  - vm_compute. reflexivity.
  - left.
  - reflexivity.
  - split; [apply Hcheck; vm_compute; reflexivity | apply Hredeem].
Defined.

(** C3, as stated, fails for absent claims: an event invitation, which
    carries no [org_uuid], decodes when shown to the invitation check, and
    the check ends in an unhandled [KeyError], not in the invalid-token
    error; the invitation of Ann, shown to the event check, ends likewise. *)
Lemma token_without_claim_not_rejected_as_invalid :
  invite_check Sample.jwt_decode {[ "token" := "event.eve" ]} Sample.world
  = Raise (KeyError "org_uuid")
  ∧ invite_event_check Sample.jwt_decode {[ "token" := "invite.ann" ]}
    = Raise (KeyError "organization").
Proof. split; vm_compute; reflexivity. Qed.

(** An expired token and a token with a tampered signature, at both checks. *)
Lemma token_rejections_witness :
  (invite_check Sample.jwt_decode {[ "token" := "expired" ]} Sample.world
   = Ok (Response (Detail "Token is expired.") HTTP_401_UNAUTHORIZED)
   ∧ invite_event_check Sample.jwt_decode {[ "token" := "expired" ]}
     = Ok (Response (Detail "Token is expired.") HTTP_401_UNAUTHORIZED))
  ∧ (invite_check Sample.jwt_decode {[ "token" := "tampered" ]} Sample.world
     = Ok (Response (Detail "Token is not valid.") HTTP_401_UNAUTHORIZED)
     ∧ invite_event_check Sample.jwt_decode {[ "token" := "tampered" ]}
       = Ok (Response (Detail "Token is not valid.") HTTP_401_UNAUTHORIZED)).
Proof.
  split.
  - apply (token_rejections Sample.jwt_decode Sample.world
             {[ "token" := "expired" ]} "expired"); reflexivity.
  - destruct (token_rejections Sample.jwt_decode Sample.world
                {[ "token" := "tampered" ]} "tampered") as (_ & Hinvalid & _);
      [reflexivity|].
    apply (Hinvalid InvalidSignatureError); reflexivity.
Defined.

(** C4, as stated, fails for an existing organization: Eve signs up under
    the name of Acme, which exists, and lists the admin group of Acme among
    her groups; the operation attaches that group, which carries the full
    mask at organization level, to her. *)
Lemma admin_group_attached_on_request :
  ∃ u w',
    CoreUserWritableSerializer.create Sample.uuid4 Sample.eve_signup Sample.world
    = (Ok u, w')
    ∧ Sample.acme ∈ organizations Sample.world
    ∧ org_name Sample.acme
      = CoreUserWritableSerializer.vd_organization_name Sample.eve_signup
    ∧ organizations w' = organizations Sample.world
    ∧ Sample.acme_admins ∈ coregroups w'
    ∧ permissions Sample.acme_admins = 15
    ∧ is_org_level Sample.acme_admins = true
    ∧ (pk u, grp_pk Sample.acme_admins) ∈ coreuser_core_groups w'.
Proof.
  do 2 eexists. split; [vm_compute; reflexivity|].
  split_and!; try reflexivity; try left.
  right. left.
Qed.

(** Bob signs up under the new name Globex. *)
Lemma signup_organization_and_groups_witness :
  ∃ u org g w',
    CoreUserWritableSerializer.create Sample.uuid4 Sample.bob_signup Sample.world
    = (Ok u, w')
    ∧ organizations w' = organizations Sample.world ++ [org]
    ∧ org_name org = "Globex"
    ∧ organization u = Some (org_pk org)
    ∧ u ∈ coreusers w'
    ∧ coregroups w' = coregroups Sample.world ++ [g]
    ∧ grp_organization g = Some (org_pk org)
    ∧ is_org_level g = true
    ∧ permissions g = 15
    ∧ ∀ gpk, (pk u, gpk) ∈ coreuser_core_groups w'
             ↔ gpk = grp_pk g ∨ gpk ∈ @nil nat.
Proof.
  destruct (signup_organization_and_groups Sample.uuid4 Sample.bob_signup
              Sample.world) as [Hnew _]; [reflexivity|].
  apply Hnew. intros o Ho. apply list_elem_of_singleton in Ho. subst o. discriminate.
Defined.

(** Eve, who asked for [is_active] false, is returned and stored active. *)
Lemma created_user_is_active_witness :
  ∃ u w',
    CoreUserWritableSerializer.create Sample.uuid4 Sample.eve_signup Sample.world
    = (Ok u, w')
    ∧ u ∈ coreusers w' ∧ is_active u = true.
Proof.
  do 2 eexists. split; [vm_compute; reflexivity|].
  eapply (proj2 (created_user_is_active Sample.uuid4 Sample.eve_signup
                   Sample.world _ _ _)).
  reflexivity.
  Unshelve. vm_compute. reflexivity.
Defined.

(** The row of Eve in the table after her signup. *)
Example eve_is_stored_active :
  is_active <$> (CoreUserWritableSerializer.create Sample.uuid4
                   Sample.eve_signup Sample.world).2.(coreusers) !! 3%nat
  = Some true.
Proof. vm_compute. reflexivity. Qed.

(** A reset for the address of Ann, which two active accounts share, with
    a backend that delivers every message. *)
Lemma reset_password_fan_out_witness :
  ∃ messages : list CoreUserResetPasswordSerializer.message,
    length messages = 2%nat
    ∧ CoreUserResetPasswordSerializer.save Sample.mail_backend Sample.render
        Sample.render "https://app.example/reset/" "Default"
        Sample.urlsafe_uid Sample.make_token "ann@example.com" Sample.world
      = (Ok 2%nat,
         with_trace
           (zip [Sample.ann; Sample.ann_again] messages
              ≫= CoreUserResetPasswordSerializer.reset_events
                    Sample.make_token "ann@example.com")
           Sample.world).
Proof.
  destruct (reset_password_fan_out Sample.mail_backend Sample.render
              Sample.render "https://app.example/reset/" "Default"
              Sample.urlsafe_uid Sample.make_token "ann@example.com"
              Sample.world) as (messages & Hlen & _ & Hall & _).
  exists messages. split; [exact Hlen|]. apply Hall. by intros [[? ?] ?].
Defined.

(** Two active users share the address: two tokens, two messages, count 2;
    nobody has the other address: count 0 and nothing happens. *)
Example reset_password_two_users :
  (CoreUserResetPasswordSerializer.save Sample.mail_backend Sample.render
     Sample.render "https://app.example/reset/" "Default"
     Sample.urlsafe_uid Sample.make_token "ann@example.com" Sample.world).1
  = Ok 2%nat
  ∧ CoreUserResetPasswordSerializer.save Sample.mail_backend Sample.render
      Sample.render "https://app.example/reset/" "Default"
      Sample.urlsafe_uid Sample.make_token "nobody@example.com" Sample.world
    = (Ok 0%nat, Sample.world).
Proof. split; vm_compute; reflexivity. Qed.

(** Eleven addresses are one too many. *)
Lemma invite_length_bounds_witness :
  ∃ detail,
    invite Sample.valid_email Sample.mail_backend Sample.render
      Sample.create_invitation_token "https://app.example/register"
      (λ location, location) username Sample.ann
      (Some (replicate 11 "new@example.com")) Sample.world
    = (Raise (ValidationError detail), Sample.world).
Proof.
  apply (proj1 (invite_length_bounds Sample.valid_email Sample.mail_backend
                  Sample.render Sample.create_invitation_token
                  "https://app.example/register" (λ location, location)
                  username Sample.ann Sample.world)).
  right. simpl. lia.
Defined.

(** Three addresses, one of them registered: two invitations go out. *)
Example invite_three_addresses :
  ∃ links w',
    invite Sample.valid_email Sample.mail_backend Sample.render
      Sample.create_invitation_token "https://app.example/register"
      (λ location, location) username Sample.ann
      (Some ["new@example.com"; "ann@example.com"; "eve@example.com"])
      Sample.world
    = (Ok (Response (Invitations "The invitations were sent successfully." links)
                    HTTP_200_OK), w')
    ∧ length links = 2%nat ∧ length (trace w') = 4%nat.
Proof. do 2 eexists. split; [vm_compute; reflexivity|]. split; reflexivity. Qed.

End ConcreteRuns.

(** * Further properties of the code *)

(** ** Permission codes, beyond the range 0..15 *)

Section PermissionCodeMore.
Import PermissionsField.

Lemma mask_of_testbits v :
  0 ≤ v ≤ 15 →
  v = mask_of (Z.testbit v 3) (Z.testbit v 2) (Z.testbit v 1) (Z.testbit v 0).
Proof.
  intros Hv.
  assert (Hcases : v = 0 ∨ v = 1 ∨ v = 2 ∨ v = 3 ∨ v = 4 ∨ v = 5 ∨ v = 6
                   ∨ v = 7 ∨ v = 8 ∨ v = 9 ∨ v = 10 ∨ v = 11 ∨ v = 12
                   ∨ v = 13 ∨ v = 14 ∨ v = 15) by lia.
  destruct_or!; subst v; reflexivity.
Qed.

Lemma to_representation_clamped v :
  0 ≤ v →
  to_representation v
  = to_representation (Z.min v 15) ∧ 0 ≤ Z.min v 15 ≤ 15.
Proof.
  intros Hv. split; [|lia].
  destruct (Z.le_gt_cases v 15) as [Hle|Hgt].
  - by rewrite Z.min_l.
  - rewrite Z.min_r by lia. unfold to_representation.
    assert (Hlt : (v <? 16) = false) by (apply Z.ltb_ge; lia).
    by rewrite Hlt.
Qed.

Lemma mask_of_injective c1 r1 u1 d1 c2 r2 u2 d2 :
  mask_of c1 r1 u1 d1 = mask_of c2 r2 u2 d2 →
  permissions_dict c1 r1 u1 d1 = permissions_dict c2 r2 u2 d2.
Proof.
  destruct c1, r1, u1, d1, c2, r2, u2, d2; intros H;
    first [reflexivity | discriminate H].
Qed.

Lemma to_internal_value_ok_dict (data : gmap string bool) (v : Z) :
  to_internal_value data = Ok v →
  ∃ c r u d, data = permissions_dict c r u d ∧ v = mask_of c r u d.
Proof.
  intros Hok.
  assert (Hdom : dom data = list_to_set _keys).
  { unfold to_internal_value in Hok. case_bool_decide; [done|discriminate]. }
  destruct (dict_of_key_set data Hdom) as (c & r & u & d & ->).
  exists c, r, u, d. split; [done|].
  rewrite to_internal_value_dict in Hok. by injection Hok.
Qed.

(** X1: decoding any integer from 0 upwards succeeds with a dictionary of
    exactly the four keys, and encoding that dictionary yields the integer
    capped at 15. *)
Theorem decode_then_encode_caps (v : Z) :
  0 ≤ v →
  ∃ data,
    to_representation v = Ok data
    ∧ dom data = {["create"; "read"; "update"; "delete"]}
    ∧ to_internal_value data = Ok (Z.min v 15).
Proof.
  intros Hv. destruct (to_representation_clamped v Hv) as [-> Hrange].
  destruct (mask_of_surjective _ Hrange) as (c & r & u & d & ->).
  eexists. split; [apply to_representation_mask|].
  split; [by rewrite dom_permissions_dict, keys_set|].
  apply to_internal_value_dict.
Qed.

(** Decoding 99 gives the dictionary that encodes to 15. *)
Lemma decode_then_encode_caps_witness :
  ∃ data,
    to_representation 99 = Ok data
    ∧ dom data = {["create"; "read"; "update"; "delete"]}
    ∧ to_internal_value data = Ok 15.
Proof. apply (decode_then_encode_caps 99). lia. Defined.

(** X2: the flags of a decoded integer are its bits, create being bit 3,
    read bit 2, update bit 1 and delete bit 0. *)
Theorem decode_bit_order (v : Z) :
  0 ≤ v ≤ 15 →
  to_representation v
  = Ok (permissions_dict (Z.testbit v 3) (Z.testbit v 2)
                         (Z.testbit v 1) (Z.testbit v 0)).
Proof.
  intros Hv. rewrite (mask_of_testbits v Hv) at 1. apply to_representation_mask.
Qed.

(** 12 is 1100: create and read. *)
Lemma decode_bit_order_witness :
  to_representation 12 = Ok (permissions_dict true true false false).
Proof. apply (decode_bit_order 12). lia. Defined.

(** X3: decoding a negative integer raises [ValueError], whatever the
    integer. *)
Theorem decode_negative_raises (v : Z) :
  v < 0 → to_representation v = Raise ValueError.
Proof. apply to_representation_negative. Qed.

Lemma decode_negative_raises_witness :
  to_representation (-12) = Raise ValueError.
Proof. apply (decode_negative_raises (-12)). lia. Defined.

(** X4: encoding is injective: two dictionaries that encode to the same
    integer are the same dictionary. *)
Theorem encode_injective (data1 data2 : gmap string bool) (v : Z) :
  to_internal_value data1 = Ok v →
  to_internal_value data2 = Ok v →
  data1 = data2.
Proof.
  intros H1 H2.
  destruct (to_internal_value_ok_dict _ _ H1) as (c1 & r1 & u1 & d1 & -> & Hv1).
  destruct (to_internal_value_ok_dict _ _ H2) as (c2 & r2 & u2 & d2 & -> & Hv2).
  apply mask_of_injective. congruence.
Qed.

Lemma encode_injective_witness :
  permissions_dict true false false true
  = <["delete" := true]> (<["update" := false]>
      (<["read" := false]> (<["create" := true]> ∅))).
Proof.
  apply (encode_injective _ _ 9).
  - apply to_internal_value_dict.
  - change (<["delete" := true]> (<["update" := false]>
              (<["read" := false]> (<["create" := true]> ∅)))
            : gmap string bool)
      with (dict [("create", true); ("read", false);
                  ("update", false); ("delete", true)]).
    rewrite dict_items. apply to_internal_value_dict.
Defined.

(** X5: the display of the permissions of a group is the binary numeral of
    the mask capped at 15: it has at most four digits, and read in base 2
    it is that number. *)
Theorem display_permissions_reads_back (g : Workflow.CoreGroup) :
  0 ≤ Workflow.permissions g →
  int_base2 (Workflow.display_permissions g)
  = Ok (Z.min (Workflow.permissions g) 15)
  ∧ (String.length (Workflow.display_permissions g) ≤ 4)%nat.
Proof.
  intros Hp. unfold Workflow.display_permissions.
  set (p := Workflow.permissions g) in *.
  assert (Hclamp : (if p <? 16 then p else 15) = Z.min p 15).
  { destruct (Z.ltb_spec p 16); lia. }
  rewrite Hclamp.
  assert (Hcases : ∃ n : nat, Z.min p 15 = Z.of_nat n ∧ (n ≤ 15)%nat).
  { exists (Z.to_nat (Z.min p 15)). lia. }
  destruct Hcases as (n & -> & Hn).
  do 16 (destruct n as [|n]; [split; [reflexivity|simpl; lia]|]). lia.
Qed.

(** 12 is displayed as 1100. *)
Lemma display_permissions_reads_back_witness :
  int_base2 (Workflow.display_permissions
               {| Workflow.name := "Team"; Workflow.workflowlevel1 := Some 1%nat;
                  Workflow.workflowlevel2 := None; Workflow.permissions := 12 |})
  = Ok 12
  ∧ (String.length (Workflow.display_permissions
               {| Workflow.name := "Team"; Workflow.workflowlevel1 := Some 1%nat;
                  Workflow.workflowlevel2 := None; Workflow.permissions := 12 |})
     ≤ 4)%nat.
Proof.
  apply (display_permissions_reads_back
           {| Workflow.name := "Team"; Workflow.workflowlevel1 := Some 1%nat;
              Workflow.workflowlevel2 := None; Workflow.permissions := 12 |}).
  simpl. lia.
Defined.

End PermissionCodeMore.

(** ** Invitations: who gets one, and what a check accepts *)

Section InvitationsMore.
Import Core Token CoreUserViewSet.

Variable jwt_decode : string → jwt_outcome.
Variable mail_backend : string → string → string → option string → nat.
Variable render_to_string : string → gmap string ctx_value → string.
Variable create_invitation_token : string → option Organization → string.
Variable registration_url : string.
Variable build_absolute_uri : string → string.
Variable org_admin_name : CoreUser → string.

Local Abbreviation perform_invite :=
  (perform_invite mail_backend render_to_string create_invitation_token
                  registration_url build_absolute_uri org_admin_name).
Local Abbreviation perform_invite_loop :=
  (perform_invite_loop mail_backend render_to_string create_invitation_token
                       registration_url build_absolute_uri org_admin_name).
Local Abbreviation invitation_link :=
  (Invitations.invitation_link create_invitation_token registration_url
                               build_absolute_uri).
Local Abbreviation invitation_events :=
  (Invitations.invitation_events render_to_string create_invitation_token
                                 registration_url build_absolute_uri
                                 org_admin_name).

Lemma filter_ext_in {A} (P Q : A → Prop)
    `{!∀ x, Decision (P x)} `{!∀ x, Decision (Q x)} (l : list A) :
  (∀ x, x ∈ l → (P x ↔ Q x)) → filter P l = filter Q l.
Proof.
  induction l as [|x l IH]; intros Hext; [done|].
  assert (Htail : filter P l = filter Q l).
  { apply IH. intros y Hy. apply Hext. by right. }
  destruct (decide (P x)) as [HP|HP].
  - rewrite !filter_cons_True; [by rewrite Htail | by apply Hext; [left|] | done].
  - rewrite !filter_cons_False; [done | | done].
    intros HQ. apply HP, Hext; [left|done].
Qed.

Lemma perform_invite_loop_run user organization registered addresses :
  ∀ links w,
    perform_invite_loop user organization registered links addresses w
    = (Ok (links
           ++ (invitation_link organization
                 <$> filter (λ a, a ∉ registered) addresses)),
       with_trace
         (trace w
          ++ (filter (λ a, a ∉ registered) addresses
                ≫= invitation_events user organization)) w).
Proof.
  induction addresses as [|address addresses IH]; intros links w.
  - simpl. unfold mret, M_ret. by rewrite !app_nil_r, with_trace_id.
  - simpl. rewrite run_bind. unfold invite_address.
    destruct (decide (address ∉ registered)) as [Hnew|Hold].
    + rewrite bool_decide_true by done. rewrite filter_cons_True by done.
      rewrite run_bind, run_emit. unfold send_email, send_email_body.
      rewrite !run_bind, run_emit. unfold mret at 1 2, M_ret at 1 2.
      rewrite IH. f_equal.
      * f_equal. rewrite fmap_cons, <- app_assoc. reflexivity.
      * unfold with_trace. simpl. by rewrite <- !app_assoc.
    + rewrite bool_decide_false by done. rewrite filter_cons_False by done.
      unfold mret at 1, M_ret at 1. apply IH.
Qed.

(** X6: [perform_invite] invites exactly the addresses of the list that
    no user has, each time it meets one and in the order of the list: the
    links it returns and the tokens and messages it issues are those of
    these addresses, an address of a registered user gets nothing, and the
    tables of the store are left as they were. *)
Theorem perform_invite_invites_unregistered
    (user : CoreUser) (addresses : list string) (w : World) :
  let organization := organization_of user w in
  let invited := Invitations.unregistered w addresses in
  perform_invite user addresses w
  = (Ok (invitation_link organization <$> invited),
     with_trace (trace w ++ (invited ≫= invitation_events user organization)) w).
Proof.
  intros organization invited. unfold CoreUserViewSet.perform_invite.
  rewrite run_bind. unfold gets at 1. rewrite run_bind. unfold gets at 1.
  rewrite perform_invite_loop_run. simpl.
  replace (filter _ addresses) with invited; [done|].
  unfold invited, Invitations.unregistered. apply filter_ext_in.
  intros a Ha. rewrite !list_elem_of_fmap. split.
  - intros Hnone (u & -> & Hu). apply list_elem_of_filter in Hu as [_ Hu].
    apply Hnone. by exists u.
  - intros Hnone (u & -> & Hu). apply Hnone. exists u. split; [done|].
    by apply list_elem_of_filter.
Qed.

(** X7: the invitation check answers with status 200 only for a token
    that decodes, whose claimed email no user has, and whose organization
    claim is empty or names exactly one stored organization; the answer
    carries the claimed email and the identifier and name of that
    organization. *)
Theorem invite_check_accepts
    (query_params : gmap string string) (w : World) (data : body) :
  invite_check jwt_decode query_params w = Ok (Response data HTTP_200_OK) →
  ∃ token decoded claimed org_uuid,
    query_params !! "token" = Some token
    ∧ jwt_decode token = Decoded decoded
    ∧ decoded !! "email" = Some claimed
    ∧ coreuser_with_email_exists claimed w = false
    ∧ decoded !! "org_uuid" = Some org_uuid
    ∧ ((truthy org_uuid = false ∧ data = InviteCheck claimed None)
       ∨ ∃ o, truthy org_uuid = true
              ∧ filter (λ o, column_is (organization_uuid o) org_uuid)
                       (organizations w) = [o]
              ∧ data = InviteCheck claimed
                         (Some (organization_uuid o, org_name o))).
Proof.
  unfold invite_check.
  destruct (query_params !! "token") as [token|] eqn:Hqp; [|discriminate].
  destruct (jwt_decode token) as [decoded|e] eqn:Hdec.
  2:{ destruct (is_DecodeError e); [discriminate|].
      destruct (is_ExpiredSignatureError e); discriminate. }
  unfold getitem.
  destruct (decoded !! "email") as [claimed|] eqn:Hclaim; simpl; [|discriminate].
  destruct (coreuser_with_email_exists claimed w) eqn:Hex; [discriminate|].
  destruct (decoded !! "org_uuid") as [org_uuid|] eqn:Horg; simpl; [|discriminate].
  destruct (truthy org_uuid) eqn:Htruthy; simpl.
  - destruct (filter _ (organizations w)) as [|o [|o' rows]] eqn:Hrows;
      simpl; try discriminate.
    intros [= <-]. exists token, decoded, claimed, org_uuid.
    split_and!; try done. right. by exists o.
  - intros [= <-]. exists token, decoded, claimed, org_uuid.
    split_and!; try done. by left.
Qed.

(** X8: signup validation accepts an invitation token exactly when the
    token decodes, no user has the claimed email, and the claimed email is
    the email of the request; it then returns the token unchanged. *)
Theorem validate_invitation_token_accepts
    (w : World) (initial_data : gmap string json) (value accepted : string) :
  CoreUserSerializer.validate_invitation_token jwt_decode w initial_data value
  = Ok accepted
  ↔ accepted = value
    ∧ ∃ decoded claimed,
        jwt_decode value = Decoded decoded
        ∧ decoded !! "email" = Some claimed
        ∧ coreuser_with_email_exists claimed w = false
        ∧ initial_data !! "email" = Some claimed.
Proof.
  unfold CoreUserSerializer.validate_invitation_token. split.
  - destruct (jwt_decode value) as [decoded|e].
    2:{ destruct (is_DecodeError e); [discriminate|].
        destruct (is_ExpiredSignatureError e); discriminate. }
    unfold getitem.
    destruct (decoded !! "email") as [claimed|] eqn:Hclaim; simpl; [|discriminate].
    destruct (coreuser_with_email_exists claimed w) eqn:Hex; simpl; [discriminate|].
    destruct (initial_data !! "email") as [given|] eqn:Hgiven; simpl; [|discriminate].
    case_bool_decide as Heq; simpl; [|discriminate].
    intros [= <-]. subst given. split; [done|]. by exists decoded, claimed.
  - intros (-> & decoded & claimed & -> & Hclaim & Hex & Hgiven).
    unfold getitem. rewrite Hclaim. simpl. rewrite Hex. simpl.
    rewrite Hgiven. simpl. by rewrite bool_decide_true.
Qed.

(** X9: the check of an event invitation answers with status 200 exactly
    when the token decodes and carries the four claims email, organization,
    room_uuid and event_uuid, which the answer repeats; it does not
    consult the store. *)
Theorem invite_event_check_accepts
    (query_params : gmap string string) (data : body) :
  invite_event_check jwt_decode query_params = Ok (Response data HTTP_200_OK)
  ↔ ∃ token decoded claimed organization room_uuid event_uuid,
      query_params !! "token" = Some token
      ∧ jwt_decode token = Decoded decoded
      ∧ decoded !! "email" = Some claimed
      ∧ decoded !! "organization" = Some organization
      ∧ decoded !! "room_uuid" = Some room_uuid
      ∧ decoded !! "event_uuid" = Some event_uuid
      ∧ data = InviteEventCheck claimed organization room_uuid event_uuid.
Proof.
  unfold invite_event_check. split.
  - destruct (query_params !! "token") as [token|] eqn:Hqp; [|discriminate].
    destruct (jwt_decode token) as [decoded|e] eqn:Hdec.
    2:{ destruct (is_DecodeError e); [discriminate|].
        destruct (is_ExpiredSignatureError e); discriminate. }
    unfold getitem.
    destruct (decoded !! "email") as [claimed|] eqn:H1; simpl; [|discriminate].
    destruct (decoded !! "organization") as [org|] eqn:H2; simpl; [|discriminate].
    destruct (decoded !! "room_uuid") as [room|] eqn:H3; simpl; [|discriminate].
    destruct (decoded !! "event_uuid") as [event|] eqn:H4; simpl; [|discriminate].
    intros [= <-]. by exists token, decoded, claimed, org, room, event.
  - intros (token & decoded & claimed & org & room & event
            & -> & -> & H1 & H2 & H3 & H4 & ->).
    unfold getitem. by rewrite H1, H2, H3, H4.
Qed.

End InvitationsMore.

(** ** Event invitations and the list of users *)

Section EventInvitations.
Import Core Token CoreUserViewSetMore.

Variable filter_queryset : list CoreUser → list CoreUser.
Variable is_global_admin : CoreUser → bool.
Variable valid_uuid : string → bool.
Variable valid_char : string → bool.
Variable mail_backend : string → string → string → option string → nat.
Variable render_to_string : string → gmap string ctx_value → string.
Variable create_invitation_token_event : string → string → string → string → string.
Variable event_login_url : string.
Variable event_registration_url : string.
Variable build_absolute_uri : string → string.

Local Abbreviation invite_event :=
  (invite_event valid_uuid valid_char mail_backend render_to_string
                create_invitation_token_event event_login_url
                event_registration_url build_absolute_uri).
Local Abbreviation invite_event_loop :=
  (invite_event_loop mail_backend render_to_string
                     create_invitation_token_event event_login_url
                     event_registration_url build_absolute_uri).
Local Abbreviation event_link :=
  (event_link create_invitation_token_event event_login_url
              event_registration_url build_absolute_uri).
Local Abbreviation event_mail :=
  (event_mail render_to_string create_invitation_token_event event_login_url
              event_registration_url build_absolute_uri).

Lemma head_filter_email (users : list CoreUser) (address : string) :
  is_Some (head (filter (λ u, email u = address) users))
  ↔ address ∈ email <$> users.
Proof.
  rewrite list_elem_of_fmap. split.
  - intros [u Hu]. exists u.
    assert (Hin : u ∈ filter (λ u, email u = address) users).
    { destruct (filter _ users) as [|u' l]; [done|].
      simpl in Hu. injection Hu as ->. left. }
    apply list_elem_of_filter in Hin as [He Hin]. done.
  - intros (u & -> & Hu).
    assert (Hin : u ∈ filter (λ u', email u' = email u) users)
      by by apply list_elem_of_filter.
    destruct (filter _ users) as [|u' l]; [by apply elem_of_nil in Hin|].
    by eexists.
Qed.

Lemma invite_event_address_run (event room name org : string) (w0 : World)
    (address : string) (links : list string) (t : list Core.event) :
  invite_event_address mail_backend render_to_string
    create_invitation_token_event event_login_url event_registration_url
    build_absolute_uri event room name org links address (with_trace t w0)
  = (Ok (links ++ [event_link event room org w0 address]),
     with_trace (t ++ [event_mail event room name org w0 address]) w0).
Proof.
  pose proof (head_filter_email (coreusers w0) address) as Hreg.
  unfold invite_event_address, CoreUserViewSetMore.event_mail,
    CoreUserViewSetMore.event_link, event_organization.
  rewrite run_bind. unfold gets at 1.
  change (coreusers (with_trace t w0)) with (coreusers w0).
  destruct (head (filter (λ u, email u = address) (coreusers w0)))
    as [user|] eqn:Huser.
  - rewrite bool_decide_true by (apply Hreg; by eexists).

    reflexivity.
  - rewrite bool_decide_false
      by (intros Hin; apply Hreg in Hin as [? ?]; discriminate).
    reflexivity.
Qed.

Lemma invite_event_loop_run (event room name org : string) (w0 : World)
    (addresses : list string) :
  ∀ links t,
    invite_event_loop event room name org links addresses (with_trace t w0)
    = (Ok (links ++ (event_link event room org w0 <$> addresses)),
       with_trace (t ++ (event_mail event room name org w0 <$> addresses)) w0).
Proof.
  induction addresses as [|address addresses IH]; intros links t.
  - simpl. unfold mret, M_ret. by rewrite !app_nil_r.
  - cbn [CoreUserViewSetMore.invite_event_loop]. rewrite run_bind.
    rewrite invite_event_address_run, IH, !fmap_cons, <- !app_assoc.
    reflexivity.
Qed.

(** X10: for a request that passes validation, [invite_event] sends one
    message to each address of the request, registered or not, in the
    order of the request, and answers with one link per address: the link
    leads to the login page and the message names the organization of the
    user when the address is registered, and they lead to the registration
    page and name the organization of the request when it is not. The
    tables of the store are left as they were. *)
Theorem invite_event_one_per_address
    (data : invite_event_data) (w : World)
    (event room name org : string) (addresses : list string) :
  is_valid valid_uuid valid_char data = Ok tt →
  event_uuid data = Some event → room_uuid data = Some room →
  emails data = Some addresses →
  event_name data = Some name → organization_name data = Some org →
  invite_event data w
  = (Ok (EventResponse "The invitations were sent successfully."
           [event_link event room org w <$> addresses]
           CoreUserViewSet.HTTP_200_OK),
     with_trace (trace w ++ (event_mail event room name org w <$> addresses)) w)
  ∧ (1 ≤ length addresses ≤ 10)%nat.
Proof.
  intros Hvalid Hevent Hroom Hemails Hname Horg. split.
  - unfold CoreUserViewSetMore.invite_event. rewrite Hvalid.
    rewrite Hevent, Hroom, Hemails, Hname, Horg.
    pose proof (invite_event_loop_run event room name org w addresses []
                  (trace w)) as Hloop.
    rewrite with_trace_id in Hloop.
    unfold data_item, mbind, M_bind, mret, M_ret. cbn beta iota.
    rewrite Hloop. reflexivity.
  - unfold is_valid in Hvalid.
    rewrite Hevent, Hroom, Hemails, Hname, Horg in Hvalid.
    destruct (negb _); [discriminate|].
    destruct (Nat.ltb_spec 10 (length addresses)); [discriminate|].
    destruct (Nat.ltb_spec (length addresses) 1); [discriminate|]. lia.
Qed.

(** X11: a user who is not a global admin is listed only users of the
    user's own organization, whatever the filter backend lets through, and
    is listed every such user that the backend lets through. *)
Theorem list_shows_own_organization (user : CoreUser) (w : World) (u : CoreUser) :
  is_global_admin user = false →
  u ∈ list_ filter_queryset is_global_admin user w
  ↔ organization u = organization user ∧ u ∈ filter_queryset (coreusers w).
Proof.
  intros Hadmin. unfold list_. rewrite Hadmin. simpl.
  by rewrite list_elem_of_filter.
Qed.

End EventInvitations.

(** ** Checking and confirming a password reset *)

Section ResetPasswordConfirm.
Import Core CoreUserResetPasswordCheckSerializer.

Variable uid_to_pk : string → option nat.
Variable check_token : CoreUser → string → bool.
Variable validate_password : option string → CoreUser → list string.

Local Abbreviation validate := (validate uid_to_pk check_token).
Local Abbreviation validate_confirm :=
  (validate_confirm uid_to_pk check_token validate_password).
Local Abbreviation confirm :=
  (confirm uid_to_pk check_token validate_password).

(** With unique keys, the rows of a key are the row that bears it. *)
Lemma filter_pk_unique (users : list CoreUser) (user : CoreUser) :
  NoDup (pk <$> users) → user ∈ users →
  filter (λ u, pk u = pk user) users = [user].
Proof.
  induction users as [|u users IH]; intros Hnodup Hin.
  - by apply elem_of_nil in Hin.
  - rewrite fmap_cons in Hnodup. apply NoDup_cons in Hnodup as [Hfresh Hnodup].
    apply elem_of_cons in Hin as [->|Hin].
    + rewrite filter_cons_True by done. f_equal.
      apply filter_none. intros u' Hu' Hpk. apply Hfresh.
      rewrite <- Hpk. apply list_elem_of_fmap. by exists u'.
    + rewrite filter_cons_False; [by apply IH|].
      intros Hpk. apply Hfresh. rewrite Hpk.
      apply list_elem_of_fmap. by exists user.
Qed.

Lemma filter_pk_singleton (users : list CoreUser) (key : nat) (user : CoreUser) :
  filter (λ u, pk u = key) users = [user] → user ∈ users ∧ pk user = key.
Proof.
  intros Hrows.
  assert (Hin : user ∈ filter (λ u, pk u = key) users) by (rewrite Hrows; left).
  apply list_elem_of_filter in Hin as [? ?]. done.
Qed.

(** X12: with both attributes present and unique keys in the user table,
    the validation of a reset link never lets an exception through: it
    accepts exactly when the uid names a stored user and the token checks
    for that user; it reports "Invalid value" under uid both when the uid
    cannot be read and when no user bears it, and under token when the
    token does not check. *)
Theorem reset_link_validation
    (attrs : gmap string string) (w : World) (uid token : string) :
  attrs !! "uid" = Some uid → attrs !! "token" = Some token →
  NoDup (pk <$> coreusers w) →
  (∀ user, validate attrs w = Valid (attrs, user)
           ↔ uid_to_pk uid = Some (pk user) ∧ user ∈ coreusers w
             ∧ check_token user token = true)
  ∧ (validate attrs w = Invalid (FieldErrors "uid" ["Invalid value"])
     ↔ ¬ ∃ user, uid_to_pk uid = Some (pk user) ∧ user ∈ coreusers w)
  ∧ (validate attrs w = Invalid (FieldErrors "token" ["Invalid value"])
     ↔ ∃ user, uid_to_pk uid = Some (pk user) ∧ user ∈ coreusers w
               ∧ check_token user token = false)
  ∧ (∀ e, validate attrs w ≠ Raises e).
Proof.
  intros Huid Htoken Hnodup.
  unfold CoreUserResetPasswordCheckSerializer.validate. rewrite Huid.
  destruct (uid_to_pk uid) as [key|].
  2:{ split_and!; try done.
      - intros user. split; [discriminate|]. by intros [? _].
      - split; [|done]. by intros _ (user & ? & _).
      - split; [discriminate|]. by intros (user & ? & _). }
  destruct (filter (λ u, pk u = key) (coreusers w)) as [|user [|user' rows]] eqn:Hrows.
  - assert (Hnone : ¬ ∃ user, Some key = Some (pk user) ∧ user ∈ coreusers w).
    { intros (user & [= ->] & Hin).
      assert (Hf : user ∈ filter (λ u, pk u = pk user) (coreusers w))
        by by apply list_elem_of_filter.
      rewrite Hrows in Hf. by apply elem_of_nil in Hf. }
    split_and!; try done.
    + intros user. split; [discriminate|].
      intros (Hk & Hin & _). destruct Hnone. by exists user.
    + split; [discriminate|]. intros (user & Hk & Hin & _).
      destruct Hnone. by exists user.
  - apply filter_pk_singleton in Hrows as Hone. destruct Hone as [Hin <-].
    assert (Honly : ∀ user', Some (pk user) = Some (pk user') →
                             user' ∈ coreusers w → user' = user).
    { intros user' [= Hpk] Hin'.
      pose proof (filter_pk_unique _ _ Hnodup Hin') as Hf.
      rewrite <- Hpk, Hrows in Hf. by injection Hf. }
    rewrite Htoken. destruct (check_token user token) eqn:Hcheck; simpl.
    + split_and!; try done.
      * intros user'. split.
        -- by intros [= <-].
        -- intros (Hk & Hin' & _). by rewrite (Honly _ Hk Hin').
      * split; [discriminate|]. intros Hnone. destruct Hnone. by exists user.
      * split; [discriminate|]. intros (user' & Hk & Hin' & Hc).
        rewrite (Honly _ Hk Hin') in Hc. congruence.
    + split_and!; try done.
      * intros user'. split; [discriminate|]. intros (Hk & Hin' & Hc).
        rewrite (Honly _ Hk Hin') in Hc. congruence.
      * split; [discriminate|]. intros Hnone. destruct Hnone. by exists user.
      * split; [|done]. intros _. by exists user.
  - exfalso.
    assert (Hin : user ∈ coreusers w ∧ pk user = key).
    { assert (Hf : user ∈ filter (λ u, pk u = key) (coreusers w))
        by (rewrite Hrows; left).
      apply list_elem_of_filter in Hf as [? ?]. done. }
    destruct Hin as [Hin <-].
    rewrite (filter_pk_unique _ _ Hnodup Hin) in Hrows. discriminate.
Qed.

(** X13: confirming a reset changes one thing: when it succeeds, the two
    new passwords were equal and passed the password validators, the link
    was valid for a stored user, and the store differs from the one before
    in the rows of that user's key only, which now hold the user with the
    new password hashed; when it does not succeed, the store is as before. *)
Theorem reset_confirm_changes_one_password
    (attrs : gmap string string) (w : World)
    (r : validation CoreUser) (w' : World) :
  confirm attrs w = (r, w') →
  match r with
  | Valid saved =>
      ∃ user raw,
        validate attrs w = Valid (attrs, user)
        ∧ attrs !! "new_password1" = Some raw
        ∧ attrs !! "new_password2" = Some raw
        ∧ validate_password (Some raw) user = []
        ∧ saved = CoreUserWritableSerializer.set_password user raw
        ∧ password saved = HashedPassword raw
        ∧ w' = with_coreusers
                 ((λ row, if bool_decide (pk row = pk user) then saved else row)
                    <$> coreusers w) w
  | _ => w' = w
  end.
Proof.
  unfold CoreUserResetPasswordCheckSerializer.confirm,
    CoreUserResetPasswordCheckSerializer.validate_confirm.
  destruct (validate attrs w) as [[attrs' user]|detail|e] eqn:Hvalid;
    [|by intros [= <- <-]|by intros [= <- <-]].
  assert (attrs' = attrs) as ->.
  { unfold CoreUserResetPasswordCheckSerializer.validate in Hvalid.
    repeat (case_match; try discriminate). by injection Hvalid. }
  case_bool_decide as Hsame; simpl; [|by intros [= <- <-]].
  destruct (validate_password (attrs !! "new_password2") user) eqn:Hpw;
    [|by intros [= <- <-]].
  unfold save.
  destruct (attrs !! "new_password1") as [raw|] eqn:Hp1;
    [|by intros [= <- <-]].
  rewrite run_bind. unfold CoreUserWritableSerializer.coreuser_save, modify.
  unfold mret, M_ret. intros [= <- <-].
  exists user, raw. rewrite <- Hsame in Hpw. by split_and!.
Qed.

End ResetPasswordConfirm.

(** ** Updating a profile *)

Section ProfileUpdate.
Import Core CoreUserProfileUpdateSerializer.



End ProfileUpdate.

(** ** Dates of creation and edition *)

Section Dates.
Import Timestamps.

Lemma saves_keep_create_date (instants : list Z) :
  ∀ (self : dates) (d : Z),
    create_date self = Some d → create_date (saves instants self) = Some d.
Proof.
  induction instants as [|now instants IH]; intros self d Hd; [done|].
  apply IH. simpl. by rewrite Hd.
Qed.

Lemma saves_snoc (instants : list Z) (now : Z) (self : dates) :
  saves (instants ++ [now]) self = save now (saves instants self).
Proof. unfold saves. by rewrite foldl_app. Qed.

(** X15: however often an object is saved, its creation date is written
    once: after one or more saves it is the date the object had, or the
    instant of the first save if it had none, and the edition date is the
    instant of the last save. *)
Theorem create_date_written_once (first : Z) (later : list Z) (self : dates) :
  create_date (saves (first :: later) self)
  = Some (default first (create_date self))
  ∧ edit_date (saves (first :: later) self) = last (first :: later).
Proof.
  split.
  - change (saves (first :: later) self) with (saves later (save first self)).
    apply saves_keep_create_date. simpl. by destruct (create_date self).
  - destruct (exists_last (l := first :: later)) as (instants & now & ->);
      [done|].
    rewrite saves_snoc, last_snoc. reflexivity.
Qed.

(** X16: a site saved without the [new_entry] argument, however often,
    has its creation date overwritten each time and its update date never
    set: after one or more such saves [created] is the instant of the last
    one and [updated] is what it was. *)
Theorem site_plain_saves_reset_created
    (first : Z) (later : list Z) (self : site_dates) :
  let saved := foldl (λ self now, save_site None now self) self (first :: later) in
  created saved = last (first :: later) ∧ updated saved = updated self.
Proof.
  destruct (exists_last (l := first :: later)) as (instants & now & ->);
    [done|].
  rewrite foldl_app, last_snoc. simpl. split; [done|].
  generalize self. induction instants as [|t instants IH]; intros s; [done|].
  simpl. by rewrite IH.
Qed.

End Dates.

(** ** Signup: ambiguous organizations and stored passwords *)

Section SignupMore.
Import Core CoreUserWritableSerializer.

Variable uuid4 : nat → string.

(** X17: when two or more organizations bear the name given at signup,
    [create] raises [MultipleObjectsReturned] and the store is as before:
    no organization, group or user is created. *)
Theorem create_ambiguous_organization
    (d : validated_data) (w : World) (o1 o2 : Organization)
    (others : list Organization) :
  filter (λ o, org_name o = vd_organization_name d) (organizations w)
  = o1 :: o2 :: others →
  create uuid4 d w = (Raise MultipleObjectsReturned, w).
Proof.
  intros Hrows. rewrite create_run. unfold organization_get_or_create.
  rewrite run_bind. unfold gets at 1. by rewrite Hrows.
Qed.

(** X18: [create] leaves no password in clear in the user table: every
    row that the operation adds holds the given password hashed, and the
    user it returns bears the given username and email and the hashed
    password. *)
Theorem created_password_is_hashed (d : validated_data) (w : World)
    (r : result CoreUser) (w' : World) :
  create uuid4 d w = (r, w') →
  (∀ u, u ∈ coreusers w' →
        u ∈ coreusers w ∨ password u = HashedPassword (vd_password d))
  ∧ (∀ u, r = Ok u →
          u ∈ coreusers w'
          ∧ password u = HashedPassword (vd_password d)
          ∧ username u = vd_username d ∧ email u = vd_email d).
Proof.
  rewrite create_run.
  pose proof (get_or_create_coreusers uuid4 (vd_organization_name d) w) as Husers.
  destruct (organization_get_or_create uuid4 (vd_organization_name d) w)
    as [[[org is_new]|e] w1]; simpl in Husers.
  2:{ intros [= <- <-]. rewrite Husers. split; [auto|discriminate]. }
  cbn zeta.
  set (u := set_password _ _).
  set (w2 := with_coreusers _ _).
  pose proof (admin_branch_coreusers org u is_new w2) as Hbranch.
  assert (Hrows : ∀ row, row ∈ coreusers w2 →
            row ∈ coreusers w ∨ password row = HashedPassword (vd_password d)).
  { intros row. unfold w2. simpl. rewrite list_elem_of_fmap.
    intros (row0 & -> & Hrow0). case_bool_decide as Hpk; [by right|].
    apply elem_of_app in Hrow0 as [?|Hlast]; [left; by rewrite <- Husers|].
    apply list_elem_of_singleton in Hlast. subst row0. by destruct Hpk. }
  assert (Hin : u ∈ coreusers w2).
  { unfold w2. simpl. apply list_elem_of_fmap. eexists. split; [|
      apply elem_of_app; right; apply list_elem_of_singleton; reflexivity].
    simpl. by rewrite bool_decide_true. }
  destruct ((if is_new
             then get_group_org_admin org ≫= λ g, core_groups_add u (grp_pk g)
             else mret tt) w2) as [[[]|e] w3]; simpl in Hbranch.
  2:{ intros [= <- <-]. rewrite Hbranch. split; [done|discriminate]. }
  destruct (for_core_groups_add_run u (default [] (vd_core_groups d)) w3)
    as (table & -> & _).
  intros [= <- <-]. simpl. rewrite Hbranch. split; [done|].
  intros ? [= <-]. done.
Qed.

End SignupMore.

(** ** Password reset: which template is used *)

Section ResetTemplates.
Import Core CoreUserResetPasswordSerializer.

Variable mail_backend : string → string → string → option string → nat.
Variable render_to_string : string → gmap string ctx_value → string.
Variable render_source : string → gmap string ctx_value → string.
Variable resetpass_confirm_url : string.
Variable DEFAULT_ORG : string.
Variable urlsafe_uid : nat → string.
Variable make_token : CoreUser → string.

Local Abbreviation save :=
  (save mail_backend render_to_string render_source
        resetpass_confirm_url DEFAULT_ORG urlsafe_uid make_token).
Local Abbreviation reset_context :=
  (ResetMessages.reset_context resetpass_confirm_url urlsafe_uid make_token).

(** X19: when the organization of the user has a reset template, the
    template of the default organization is not used: the message bears
    the subject and the rendered text of the organization's template when
    that template has a text, and is the built-in message "Reset your
    password" when its text is empty or missing. *)
Theorem reset_uses_organization_template
    (address : string) (w : World) (user : CoreUser) (tpl : EmailTemplate) :
  active_users_with_email address w = [user] →
  template_of_organization (organization user) TEMPLATE_RESET_PASSWORD w
  = Some tpl →
  let context := reset_context user in
  let m : message :=
    if truthy_str (template tpl) then
      (subject tpl,
       render_source (default EmptyString (template tpl)) context,
       if truthy_str (template_html tpl)
       then Some (render_source (default EmptyString (template_html tpl)) context)
       else None)
    else
      ("Reset your password"%string,
       render_to_string "email/coreuser/password_reset.txt" context,
       Some (render_to_string "email/coreuser/password_reset.html" context)) in
  save address w
  = (Ok (dispatched mail_backend address m),
     with_trace (trace w ++ reset_events make_token address (user, m)) w).
Proof.
  intros Husers Htpl context m.
  unfold CoreUserResetPasswordSerializer.save. rewrite run_bind.
  unfold gets at 1. rewrite Husers.
  cbn [CoreUserResetPasswordSerializer.save_loop]. rewrite run_bind.
  unfold save_user. rewrite run_bind, run_emit.
  rewrite run_bind. unfold gets at 1.
  change (template_of_organization (organization user) TEMPLATE_RESET_PASSWORD
            (with_trace _ w))
    with (template_of_organization (organization user) TEMPLATE_RESET_PASSWORD w).
  rewrite Htpl. rewrite run_bind. unfold mret at 1, M_ret at 1.
  unfold m, context, ResetMessages.reset_context.
  destruct (truthy_str (template tpl)).
  - unfold send_email_body. rewrite !run_bind, run_emit.
    unfold mret, M_ret. simpl. unfold with_trace. simpl.
    by rewrite <- app_assoc.
  - unfold send_email, send_email_body. rewrite !run_bind, run_emit.
    unfold mret, M_ret. simpl. unfold with_trace. simpl.
    by rewrite <- app_assoc.
Qed.

End ResetTemplates.

(** ** Concrete runs of the further properties *)

Section ConcreteRunsMore.
Import Core Token CoreUserViewSet.

(** The invitation of Eve passes the check and names Acme. *)
Lemma invite_check_accepts_witness :
  ∃ token decoded claimed org_uuid,
    ({[ "token" := "invite.eve" ]} : gmap string string) !! "token" = Some token
    ∧ SampleMore.jwt_decode token = Decoded decoded
    ∧ decoded !! "email" = Some claimed
    ∧ coreuser_with_email_exists claimed Sample.world = false
    ∧ decoded !! "org_uuid" = Some org_uuid
    ∧ ((truthy org_uuid = false
        ∧ InviteCheck (JString "eve@example.com") (Some ("6f1c-acme", "Acme"))
          = InviteCheck claimed None)
       ∨ ∃ o, truthy org_uuid = true
              ∧ filter (λ o, column_is (organization_uuid o) org_uuid)
                       (organizations Sample.world) = [o]
              ∧ InviteCheck (JString "eve@example.com")
                            (Some ("6f1c-acme", "Acme"))
                = InviteCheck claimed (Some (organization_uuid o, org_name o))).
Proof.
  apply (invite_check_accepts SampleMore.jwt_decode
           {[ "token" := "invite.eve" ]} Sample.world).
  vm_compute. reflexivity.
Defined.

(** Eve signs up with her invitation and her own address. *)
Lemma validate_invitation_token_accepts_witness :
  CoreUserSerializer.validate_invitation_token SampleMore.jwt_decode
    Sample.world {[ "email" := JString "eve@example.com" ]} "invite.eve"
  = Ok "invite.eve".
Proof.
  apply (proj2 (validate_invitation_token_accepts SampleMore.jwt_decode
                  Sample.world {[ "email" := JString "eve@example.com" ]}
                  "invite.eve" "invite.eve")).
  split; [reflexivity|].
  exists SampleMore.invitation_of_eve, (JString "eve@example.com").
  split_and!; vm_compute; reflexivity.
Defined.

(** The event invitation of Eve passes the event check. *)
Lemma invite_event_check_accepts_witness :
  invite_event_check Sample.jwt_decode {[ "token" := "event.eve" ]}
  = Ok (Response (InviteEventCheck (JString "eve@example.com") (JString "Acme")
                    (JString "room-1") (JString "event-1")) HTTP_200_OK).
Proof.
  apply (proj2 (invite_event_check_accepts Sample.jwt_decode
                  {[ "token" := "event.eve" ]} _)).
  exists "event.eve", Sample.event_invitation_of_eve,
    (JString "eve@example.com"), (JString "Acme"),
    (JString "room-1"), (JString "event-1").
  split_and!; vm_compute; reflexivity.
Defined.

(** Ann, who is registered, and Eve, who is not, are invited to an event. *)
Lemma invite_event_one_per_address_witness :
  CoreUserViewSetMore.invite_event (λ _, true) (λ _, true) Sample.mail_backend
    Sample.render SampleMore.create_invitation_token_event
    "https://app.example/login" "https://app.example/register"
    (λ location, location) SampleMore.event_data Sample.world
  = (Ok (CoreUserViewSetMore.EventResponse
           "The invitations were sent successfully."
           [CoreUserViewSetMore.event_link
              SampleMore.create_invitation_token_event
              "https://app.example/login" "https://app.example/register"
              (λ location, location) "event-1" "room-1" "Globex" Sample.world
              <$> ["ann@example.com"; "eve@example.com"]]
           HTTP_200_OK),
     with_trace
       (trace Sample.world
        ++ (CoreUserViewSetMore.event_mail Sample.render
              SampleMore.create_invitation_token_event
              "https://app.example/login" "https://app.example/register"
              (λ location, location) "event-1" "room-1" "Launch" "Globex"
              Sample.world
              <$> ["ann@example.com"; "eve@example.com"]))
       Sample.world)
  ∧ (1 ≤ length ["ann@example.com"; "eve@example.com"] ≤ 10)%nat.
Proof.
  apply (invite_event_one_per_address (λ _, true) (λ _, true)
           Sample.mail_backend Sample.render
           SampleMore.create_invitation_token_event
           "https://app.example/login" "https://app.example/register"
           (λ location, location) SampleMore.event_data Sample.world);
    reflexivity.
Defined.

(** Ann, who is no global admin, is listed her colleague of Acme. *)
Lemma list_shows_own_organization_witness :
  Sample.ann_again
  ∈ CoreUserViewSetMore.list_ (λ users, users) (λ _, false) Sample.ann Sample.world.
Proof.
  apply (list_shows_own_organization (λ users, users) (λ _, false)
           Sample.ann Sample.world Sample.ann_again); [reflexivity|].
  split; [reflexivity|]. right. left.
Defined.

(** The link sent to Ann validates. *)
Lemma reset_link_validation_witness :
  CoreUserResetPasswordCheckSerializer.validate SampleMore.uid_to_pk
    SampleMore.check_token SampleMore.reset_attrs Sample.world
  = CoreUserResetPasswordCheckSerializer.Valid (SampleMore.reset_attrs, Sample.ann).
Proof.
  destruct (reset_link_validation SampleMore.uid_to_pk SampleMore.check_token
              SampleMore.reset_attrs Sample.world "Mw" "reset-ann")
    as (Hvalid & _).
  - vm_compute. reflexivity.
  - vm_compute. reflexivity.
  - apply (bool_decide_eq_true_1 _). vm_compute. reflexivity.
  - apply Hvalid. split_and!; [reflexivity| left | reflexivity].
Defined.

(** Ann confirms her reset: her row, and no other, has the new password. *)
Lemma reset_confirm_changes_one_password_witness :
  ∃ user raw,
    CoreUserResetPasswordCheckSerializer.validate SampleMore.uid_to_pk
      SampleMore.check_token SampleMore.reset_attrs Sample.world
    = CoreUserResetPasswordCheckSerializer.Valid (SampleMore.reset_attrs, user)
    ∧ SampleMore.reset_attrs !! "new_password1" = Some raw
    ∧ SampleMore.reset_attrs !! "new_password2" = Some raw
    ∧ SampleMore.validate_password (Some raw) user = []
    ∧ CoreUserWritableSerializer.set_password Sample.ann "correct horse"
      = CoreUserWritableSerializer.set_password user raw
    ∧ password (CoreUserWritableSerializer.set_password Sample.ann "correct horse")
      = HashedPassword raw
    ∧ with_coreusers
        [CoreUserWritableSerializer.set_password Sample.ann "correct horse";
         Sample.ann_again; Sample.ann_retired] Sample.world
      = with_coreusers
          ((λ row, if bool_decide (pk row = pk user)
                   then CoreUserWritableSerializer.set_password Sample.ann
                          "correct horse"
                   else row) <$> coreusers Sample.world) Sample.world.
Proof.
  apply (reset_confirm_changes_one_password SampleMore.uid_to_pk
           SampleMore.check_token SampleMore.validate_password
           SampleMore.reset_attrs Sample.world
           (CoreUserResetPasswordCheckSerializer.Valid
              (CoreUserWritableSerializer.set_password Sample.ann "correct horse"))).
  vm_compute. reflexivity.
Defined.

(** Eve signs up under the name Acme when two organizations bear it. *)
Lemma create_ambiguous_organization_witness :
  CoreUserWritableSerializer.create Sample.uuid4 Sample.eve_signup
    SampleMore.world_with_two_acmes
  = (Raise MultipleObjectsReturned, SampleMore.world_with_two_acmes).
Proof.
  apply (create_ambiguous_organization Sample.uuid4 Sample.eve_signup
           SampleMore.world_with_two_acmes Sample.acme
           {| org_pk := 6; organization_uuid := "77aa-acme"; org_name := "Acme" |}
           []).
  reflexivity.
Defined.

(** Bob is stored with his password hashed. *)
Lemma created_password_is_hashed_witness :
  ∃ u w',
    CoreUserWritableSerializer.create Sample.uuid4 Sample.bob_signup Sample.world
    = (Ok u, w')
    ∧ u ∈ coreusers w'
    ∧ password u = HashedPassword "pw"
    ∧ username u = "bob" ∧ email u = "bob@example.com".
Proof.
  do 2 eexists. split; [vm_compute; reflexivity|].
  eapply (proj2 (created_password_is_hashed Sample.uuid4 Sample.bob_signup
                   Sample.world _ _ _)).
  reflexivity.
  Unshelve. vm_compute. reflexivity.
Defined.

(** Acme's template has no text: Ann gets the built-in message. *)
Lemma reset_uses_organization_template_witness :
  CoreUserResetPasswordSerializer.save Sample.mail_backend Sample.render
    Sample.render "https://app.example/reset/" "Default"
    Sample.urlsafe_uid Sample.make_token "ann@example.com"
    SampleMore.world_with_template
  = (Ok 1%nat,
     with_trace
       [ResetTokenMinted 3 "reset-ann";
        EmailSent "ann@example.com" "Reset your password"
          "email/coreuser/password_reset.txt"
          (Some "email/coreuser/password_reset.html")]
       SampleMore.world_with_template).
Proof.
  apply (reset_uses_organization_template Sample.mail_backend Sample.render
           Sample.render "https://app.example/reset/" "Default"
           Sample.urlsafe_uid Sample.make_token "ann@example.com"
           SampleMore.world_with_template Sample.ann SampleMore.acme_template);
    reflexivity.
Defined.

End ConcreteRunsMore.
